(** * zkmultisig-node: the census builder and the vote-package ledger

  A shallow embedding of the two Go packages of the node:

  - [censusbuilder]: the [CensusBuilder] that allocates census identifiers
    from a counter kept in a key-value database, loads each census lazily
    from its own database directory and caches the loaded handles;
  - [db]: the SQLite table of vote packages.

  Go values are modelled as follows.  A [uint64] is a [Z] in
  [0, 2^64) and its arithmetic wraps; an [int] is a 64-bit two's
  complement [Z]; a [[]byte] is a [list byte]; a [string] is a [string];
  an [error] is [option error] with [None] for [nil]; a function that can
  panic returns an [outcome]. *)

From Stdlib Require Import ZArith Lia Ascii.
From Stdlib.Strings Require Import Byte.
From stdpp Require Import base option list sorting gmap strings pretty.

Local Open Scope Z_scope.

(** ** Machine integers *)

#[global] Instance byte_eq_dec : EqDecision byte.
Proof.
  intros x y. destruct (Byte.eqb x y) eqn:E.
  - left. by apply Byte.byte_dec_bl.
  - right. intros ->. by rewrite Byte.byte_dec_lb in E.
Defined.

Module Uint64.

Definition modulus : Z := 2 ^ 64.

(** Truncation to 64 bits, as Go's [uint64] arithmetic does. *)
Definition wrap (z : Z) : Z := z mod modulus.

(** [x + y] on [uint64]. *)
Definition add (x y : Z) : Z := wrap (x + y).

Definition in_range (z : Z) : Prop := 0 <= z < modulus.

(** The conversion [int(x)] of a [uint64] on a 64-bit platform: the same
    bits read as a two's complement number. *)
Definition to_int (x : Z) : Z :=
  if x <? 2 ^ 63 then x else x - modulus.

End Uint64.

(** ** [encoding/binary]: little-endian 64-bit integers *)

Module LittleEndian.

(** Go's [byte(v)]: the low eight bits of [v]. *)
Definition byte_of_Z (v : Z) : byte :=
  default x00 (Byte.of_N (Z.to_N (v mod 256))).

(** Go's [uint64(b)] of a byte. *)
Definition Z_of_byte (b : byte) : Z := Z.of_N (Byte.to_N b).

(** [binary.LittleEndian.PutUint64(b, v)] on a fresh [make([]byte, 8)]:
    [b[i] = byte(v >> (8*i))]. *)
Definition PutUint64 (v : Z) : list byte :=
  [ byte_of_Z v;
    byte_of_Z (Z.shiftr v 8);
    byte_of_Z (Z.shiftr v 16);
    byte_of_Z (Z.shiftr v 24);
    byte_of_Z (Z.shiftr v 32);
    byte_of_Z (Z.shiftr v 40);
    byte_of_Z (Z.shiftr v 48);
    byte_of_Z (Z.shiftr v 56) ].

(** [binary.LittleEndian.Uint64(b)]: it first evaluates [b[7]] as a bounds
    check, so a slice of fewer than eight bytes makes it panic with an
    index out of range; this is the [None] here.  Bytes after the eighth
    are not looked at. *)
Definition Uint64 (b : list byte) : option Z :=
  match b with
  | b0 :: b1 :: b2 :: b3 :: b4 :: b5 :: b6 :: b7 :: _ =>
      Some (Z.lor (Z.lor (Z.lor (Z.lor (Z.lor (Z.lor (Z.lor
              (Z_of_byte b0)
              (Z.shiftl (Z_of_byte b1) 8))
              (Z.shiftl (Z_of_byte b2) 16))
              (Z.shiftl (Z_of_byte b3) 24))
              (Z.shiftl (Z_of_byte b4) 32))
              (Z.shiftl (Z_of_byte b5) 40))
              (Z.shiftl (Z_of_byte b6) 48))
              (Z.shiftl (Z_of_byte b7) 56))
  | _ => None
  end.

End LittleEndian.

(** ** Strings *)

Module Str.

(** [all_chars p s]: every character of [s] satisfies [p]. *)
Fixpoint all_chars (p : ascii -> bool) (s : string) : bool :=
  match s with
  | EmptyString => true
  | String c s' => p c && all_chars p s'
  end.

End Str.

(** ** [strconv] *)

Module Strconv.

(** [strconv.Itoa(i)]: the decimal digits of [i], with a leading minus sign
    when [i] is negative. *)
Definition Itoa (i : Z) : string := pretty i.

(** The characters [Itoa] can produce. *)
Definition is_decimal_char (c : ascii) : bool :=
  bool_decide (c ∈ ["0"; "1"; "2"; "3"; "4"; "5"; "6"; "7"; "8"; "9"; "-"]%char).

End Strconv.

(** ** [path/filepath] on a Unix system *)

Module Filepath.

Definition Separator : ascii := "/"%char.

(** The path elements of [path]: the pieces between separators. *)
Fixpoint elements (path : string) : list string :=
  match path with
  | EmptyString => [""]
  | String c rest =>
      if decide (c = Separator) then "" :: elements rest
      else match elements rest with
           | e :: es => String c e :: es
           | [] => [String c ""]
           end
  end.

Definition rooted (path : string) : bool :=
  match path with
  | String c _ => bool_decide (c = Separator)
  | EmptyString => false
  end.

(** One path element is processed; [out] is the stack of the elements kept
    so far, the last one on top.  An empty element and [.] are dropped; [..]
    removes the element before it when there is one that is not itself
    [..], is dropped at the root, and is kept otherwise; any other element
    is kept. *)
Definition clean_step (is_rooted : bool) (out : list string) (e : string)
  : list string :=
  if decide (e = "" \/ e = ".") then out
  else if decide (e = "..") then
    match out with
    | top :: below =>
        if decide (top = "..") then e :: out else below
    | [] => if is_rooted then [] else [e]
    end
  else e :: out.

(** [filepath.Clean]: the shortest path name equivalent to [path] by
    purely lexical processing; the empty result is written [.]. *)
Definition Clean (path : string) : string :=
  let is_rooted := rooted path in
  let out := rev (foldl (clean_step is_rooted) [] (elements path)) in
  let s := (if is_rooted then "/" else "") +:+ String.concat "/" out in
  if decide (s = "") then "." else s.

(** [filepath.Join(elem...)]: the leading empty elements are ignored, the
    rest is joined with the separator and cleaned; the result is empty when
    every element is. *)
Fixpoint Join (elem : list string) : string :=
  match elem with
  | [] => ""
  | e :: rest =>
      if decide (e = "") then Join rest
      else Clean (String.concat "/" elem)
  end.

(** A plain file name: not empty, and without separator or dot. *)
Definition plain_char (c : ascii) : bool :=
  negb (bool_decide (c = Separator)) && negb (bool_decide (c = "."%char)).

Definition plain (name : string) : Prop :=
  name <> "" /\ Str.all_chars plain_char name = true.

(** The part of a joined path that comes before a plain last element. *)
Definition join_prefix (root : string) : string :=
  if decide (root = "") then ""
  else
    (if rooted root then "/" else "") +:+
    match rev (foldl (clean_step (rooted root)) [] (elements root)) with
    | [] => ""
    | x :: l => String.concat "/" (x :: l) +:+ "/"
    end.

End Filepath.

(** ** The census builder *)

(** A Go [error] value, by its message. *)
Definition error : Type := string.

(** [babyjub.PublicKey]: a point of the curve. *)
Record PublicKey := mkPublicKey { X : Z; Y : Z }.

(** [arbo.Invalid]: a key the census tree did not take, by its position in the
  batch, with the reason. *)
Record Invalid := mkInvalid { Index : Z; Error : error }.

(** *** The control database

  [db.Database] of [go.vocdoni.io/dvote/db] is an interface.  What it
  stores is a key-value store: a transaction reads through its own pending
  writes, [Get] of an absent key is [ErrKeyNotFound], and [Commit] applies
  the pending writes to the database.  Each operation of a transaction can
  also fail with an error of the engine behind the interface; those errors
  come from the environment (see [db_fault] below), and this module says
  what an operation does when the engine raises none. *)

Module Database.

Abbreviation Store := (gmap string (list byte)).

Definition ErrKeyNotFound : error := "key not found".

(** [db.ReadTx] and [db.WriteTx]; a write transaction is a read
    transaction too. *)
Record Tx := mkTx { tx_view : Store; tx_batch : Store }.

Definition ReadTx (d : Store) : Tx := {| tx_view := d; tx_batch := ∅ |}.

Definition WriteTx (d : Store) : Tx := {| tx_view := d; tx_batch := ∅ |}.

Definition Get (tx : Tx) (key : string) : list byte + error :=
  match (tx_batch tx ∪ tx_view tx) !! key with
  | Some v => inl v
  | None => inr ErrKeyNotFound
  end.

Definition Set_ (tx : Tx) (key : string) (value : list byte) : Tx :=
  {| tx_view := tx_view tx; tx_batch := <[key := value]> (tx_batch tx) |}.

Definition Commit (tx : Tx) (d : Store) : Store := tx_batch tx ∪ d.

(** An operation of a transaction, as the engine sees it. *)
Inductive op :=
| OpGet (key : string)
| OpSet (key : string) (value : list byte)
| OpCommit.

End Database.

(** *** The collaborators

  The packages [pebbledb] (go.vocdoni.io/dvote/db/pebbledb) and [census]
  (the identity set of one census) and the engine of the control database
  are used through these operations only.  They act on the storage of the
  node ([Disk]: the file system that holds the census databases, and the
  device of the control database) and, for the methods of
  [*census.Census], on the object they are called on.  Nothing is assumed
  of them: every operation may succeed or fail, and an operation that
  failed once may succeed the next time. *)

Class Collaborators := {
  Disk : Type;
  SubDB : Type;
  Census : Type;
  (** [pebbledb.New(db.Options{Path: path})] *)
  pebbledb_New : string -> Disk -> (SubDB + error) * Disk;
  (** [census.New(census.Options{DB: database})] *)
  census_New : SubDB -> Disk -> (Census + error) * Disk;
  (** [c.Close()] *)
  census_Close : Census -> Disk -> option error * Census * Disk;
  (** [c.Root()] *)
  census_Root : Census -> Disk -> (list byte * option error) * Census * Disk;
  (** [c.AddPublicKeys(pubKs)] *)
  census_AddPublicKeys :
    list PublicKey -> Census -> Disk ->
    (list Invalid * option error) * Census * Disk;
  (** [c.SetStatus(wTx, status)]; the transaction comes back with what the
      census wrote in it. *)
  census_SetStatus :
    Database.Tx -> string -> Census -> Disk ->
    (Database.Tx * option error) * Census * Disk;
  (** The error, if any, with which the engine of the control database
      fails an operation of a transaction: [tx.Get(key)],
      [wTx.Set(key, value)] or [wTx.Commit()]. *)
  db_fault : Database.op -> Disk -> option error * Disk;
}.

(** An operand of a log line. *)
Inductive arg :=
| ArgInt (z : Z)
| ArgStr (s : string).

(** What is observed of a run besides its results. *)
Inductive Event :=
| EvOpen (censusID : Z) (path : string)
    (** [pebbledb.New] was called for [censusID], on [path] *)
| EvCensus (censusID : Z) (handle : nat)
    (** [census.New] gave the census object at address [handle] *)
| EvLog (level : string) (format : string) (args : list arg).

Module CensusBuilder.

Section WithCollaborators.

Context `{Collab : Collaborators}.

(** The [CensusBuilder] ([subDBsPath], [db] and [censuses]) together with
    the memory and the file system it works on: [censuses] maps a census
    identifier to the address of a [census.Census] object, [heap] holds the
    objects by address. *)
Record State := mkState {
  subDBsPath : string;
  db : Database.Store;
  censuses : gmap Z nat;
  heap : list Census;
  disk : Disk;
  trace : list Event;
}.

Definition set_db (f : Database.Store -> Database.Store) (s : State) : State :=
  mkState (subDBsPath s) (f (db s)) (censuses s) (heap s) (disk s) (trace s).

Definition set_censuses (f : gmap Z nat -> gmap Z nat) (s : State) : State :=
  mkState (subDBsPath s) (db s) (f (censuses s)) (heap s) (disk s) (trace s).

Definition set_heap (f : list Census -> list Census) (s : State) : State :=
  mkState (subDBsPath s) (db s) (censuses s) (f (heap s)) (disk s) (trace s).

Definition set_disk (d : Disk) (s : State) : State :=
  mkState (subDBsPath s) (db s) (censuses s) (heap s) d (trace s).

Definition emit (e : Event) (s : State) : State :=
  mkState (subDBsPath s) (db s) (censuses s) (heap s) (disk s)
          (trace s ++ [e]).

(** A call returns, or panics. *)
Inductive outcome (A : Type) :=
| Returns (s : State) (a : A)
| Panics (s : State) (msg : string).

Global Arguments Returns {A} s a.
Global Arguments Panics {A} s msg.

Definition final {A} (o : outcome A) : State :=
  match o with Returns s _ => s | Panics s _ => s end.

(** What a call returned, when it did. *)
Definition result {A} (o : outcome A) : option A :=
  match o with Returns _ a => Some a | Panics _ _ => None end.

Definition M (A : Type) : Type := State -> outcome A.

Definition ret {A} (a : A) : M A := fun s => Returns s a.

Definition bind {A B} (m : M A) (k : A -> M B) : M B :=
  fun s =>
    match m s with
    | Returns s' a => k a s'
    | Panics s' msg => Panics s' msg
    end.

Definition panic {A} (msg : string) : M A := fun s => Panics s msg.

Definition gets {A} (f : State -> A) : M A := fun s => Returns s (f s).

Definition modify (f : State -> State) : M unit := fun s => Returns (f s) tt.

Notation "x <- m ;; k" := (bind m (fun x => k))
  (at level 100, m at next level, right associativity).
Notation "m ;; k" := (bind m (fun _ => k))
  (at level 100, right associativity).

(** [log.Debugf] and [log.Errorf]: the line is recorded by its format and
    operands. *)
Definition log (level format : string) (args : list arg) : M unit :=
  modify (emit (EvLog level format args)).

(** [tx.Get(key)] on the control database: the error of the engine when it
    fails the read, and otherwise the value as the transaction sees it, or
    [ErrKeyNotFound]. *)
Definition tx_Get (tx : Database.Tx) (key : string)
  : M (list byte + error) :=
  fun s =>
    let '(fault, d) := db_fault (Database.OpGet key) (disk s) in
    Returns (set_disk d s)
      match fault with
      | Some err => inr err
      | None => Database.Get tx key
      end.

(** [wTx.Set(key, value)]: the error of the engine when it fails the write,
    and otherwise the transaction with the write pending. *)
Definition tx_Set (wTx : Database.Tx) (key : string) (value : list byte)
  : M (Database.Tx * option error) :=
  fun s =>
    let '(fault, d) := db_fault (Database.OpSet key value) (disk s) in
    Returns (set_disk d s)
      match fault with
      | Some err => (wTx, Some err)
      | None => (Database.Set_ wTx key value, None)
      end.

(** [wTx.Commit()] on the control database: the error of the engine when it
    fails the commit, which leaves the database as it is, and otherwise the
    pending writes are applied. *)
Definition commit (wTx : Database.Tx) : M (option error) :=
  fun s =>
    let '(fault, d) := db_fault Database.OpCommit (disk s) in
    match fault with
    | Some err => Returns (set_disk d s) (Some err)
    | None =>
        Returns (set_db (Database.Commit wTx) (set_disk d s)) None
    end.

Definition dbKeyNextCensusID : string := "nextCensusID".

Definition setNextCensusID (wTx : Database.Tx) (nextCensusID : Z)
  : M (Database.Tx * option error) :=
  let b := LittleEndian.PutUint64 nextCensusID in
  r <- tx_Set wTx dbKeyNextCensusID b ;;
  let '(wTx', err) := r in
  match err with
  | Some e => ret (wTx', Some e)
  | None => ret (wTx', None)
  end.

Definition getNextCensusID (rTx : Database.Tx) : M (Z * option error) :=
  r <- tx_Get rTx dbKeyNextCensusID ;;
  match r with
  | inr err => ret (0, Some err)
  | inl b =>
      match LittleEndian.Uint64 b with
      | Some nextCensusID => ret (nextCensusID, None)
      | None =>
          panic ("runtime error: index out of range [7] with length "
                 +:+ pretty (length b))
      end
  end.

(** The struct literal of [New]: a builder with an empty [censuses] map. *)
Definition fresh (database : Database.Store) (path : string) (d : Disk)
  : State :=
  {| subDBsPath := path; db := database; censuses := ∅;
     heap := []; disk := d; trace := [] |}.

(** [New(database, subDBsPath)], run on the storage [d].  The result
    [None] stands for [(cb, nil)], with [cb] the state of the outcome, and
    [Some err] for [(nil, err)]. *)
Definition New (database : Database.Store) (path : string) (d : Disk)
  : outcome (option error) :=
  (wTx <- gets (fun cb => Database.WriteTx (db cb)) ;;
   r <- getNextCensusID wTx ;;
   let '(_, err) := r in
   r <- match err with
        | Some _ => setNextCensusID wTx 0
        | None => ret (wTx, None)
        end ;;
   let '(wTx, err) := r in
   match err with
   | Some e => ret (Some e)
   | None =>
       err <- commit wTx ;;
       match err with
       | Some e => ret (Some e)
       | None => ret None
       end
   end) (fresh database path d).

(** The directory of the database of a census. *)
Definition census_path (root : string) (censusID : Z) : string :=
  Filepath.Join [root; Strconv.Itoa (Uint64.to_int censusID)].

(** [pebbledb.New(optsDB)] *)
Definition open_database (censusID : Z) (path : string)
  : M (SubDB + error) :=
  fun s =>
    let '(r, d) := pebbledb_New path (disk s) in
    Returns (emit (EvOpen censusID path) (set_disk d s)) r.

(** [census.New(optsCensus)]; a new object is allocated. *)
Definition new_census (censusID : Z) (database : SubDB)
  : M (nat + error) :=
  fun s =>
    let '(r, d) := census_New database (disk s) in
    match r with
    | inl c =>
        let handle := length (heap s) in
        Returns (emit (EvCensus censusID handle)
                   (set_heap (fun h => h ++ [c]) (set_disk d s)))
                (inl handle)
    | inr err => Returns (set_disk d s) (inr err)
    end.

Definition loadCensusIfNotYet (censusID : Z) : M (option error) :=
  cached <- gets (fun cb => censuses cb !! censusID) ;;
  match cached with
  | Some _ => ret None
  | None =>
      root <- gets subDBsPath ;;
      r <- open_database censusID (census_path root censusID) ;;
      match r with
      | inr err => ret (Some err)
      | inl database =>
          r <- new_census censusID database ;;
          match r with
          | inr err => ret (Some err)
          | inl c =>
              modify (set_censuses (fun m => <[censusID := c]> m)) ;;
              ret None
          end
      end
  end.

Definition NewCensus : M (Z * option error) :=
  rTx <- gets (fun cb => Database.ReadTx (db cb)) ;;
  r <- getNextCensusID rTx ;;
  let '(nextCensusID, err) := r in
  match err with
  | Some e => ret (0, Some e)
  | None =>
      err <- loadCensusIfNotYet nextCensusID ;;
      match err with
      | Some e => ret (0, Some e)
      | None =>
          wTx <- gets (fun cb => Database.WriteTx (db cb)) ;;
          r <- setNextCensusID wTx (Uint64.add nextCensusID 1) ;;
          let '(wTx, err) := r in
          match err with
          | Some e => ret (0, Some e)
          | None =>
              err <- commit wTx ;;
              match err with
              | Some e => ret (0, Some e)
              | None =>
                  log "debug" "[CensusID=%d] New census created"
                      [ArgInt nextCensusID] ;;
                  ret (nextCensusID, None)
              end
          end
      end
  end.

(** [cb.censuses[censusID].method(...)]: the method runs on the object the
    map points to and may change it; an identifier that is not in the map
    gives the nil pointer, and the call panics. *)
Definition call_census {A} (censusID : Z)
    (method : Census -> Disk -> A * Census * Disk) : M A :=
  fun s =>
    match censuses s !! censusID with
    | Some handle =>
        match heap s !! handle with
        | Some c =>
            let '(a, c', d) := method c (disk s) in
            Returns (set_heap (fun h => <[handle := c']> h) (set_disk d s)) a
        | None =>
            Panics s "invalid memory address or nil pointer dereference"
        end
    | None => Panics s "invalid memory address or nil pointer dereference"
    end.

Definition CloseCensus (censusID : Z) : M (option error) :=
  err <- loadCensusIfNotYet censusID ;;
  match err with
  | Some e => ret (Some e)
  | None => call_census censusID census_Close
  end.

Definition CensusRoot (censusID : Z) : M (list byte * option error) :=
  err <- loadCensusIfNotYet censusID ;;
  match err with
  | Some e => ret ([], Some e)
  | None =>
      r <- call_census censusID census_Root ;;
      let '(root, err) := r in
      match err with
      | Some e => ret ([], Some ("Can not get the CensusRoot, " +:+ e))
      | None => ret (root, None)
      end
  end.

Definition CensusInfo (censusID : Z) : M (string * option error) :=
  ret ("WIP, this will return info about CensusID: " +:+ pretty censusID,
       None).

(** The error of a batch with rejected keys:
    [fmt.Errorf("CensusBuilder.AddPublicKeys error: %d invalid keys,
    invalid msg for key %d: %s", len(invalids), invalids[0].Index,
    invalids[0].Error)]. *)
Definition invalid_keys_error (count : nat) (first : Invalid) : error :=
  "CensusBuilder.AddPublicKeys error: " +:+ pretty (Z.of_nat count) +:+
  " invalid keys, invalid msg for key " +:+ pretty (Index first) +:+
  ": " +:+ Error first.

Definition AddPublicKeys (censusID : Z) (pubKs : list PublicKey)
  : M (option error) :=
  err <- loadCensusIfNotYet censusID ;;
  match err with
  | Some e => ret (Some e)
  | None =>
      r <- call_census censusID (census_AddPublicKeys pubKs) ;;
      let '(invalids, err) := r in
      match err with
      | Some e => ret (Some e)
      | None =>
          match invalids with
          | first :: _ =>
              ret (Some (invalid_keys_error (length invalids) first))
          | [] =>
              log "debug" "[CensusID=%d] %d PublicKeys added"
                  [ArgInt censusID; ArgInt (Z.of_nat (length pubKs))] ;;
              ret None
          end
      end
  end.

Definition SetStatus (censusID : Z) (status : string) : M (option error) :=
  err <- loadCensusIfNotYet censusID ;;
  match err with
  | Some e => ret (Some e)
  | None =>
      wTx <- gets (fun cb => Database.WriteTx (db cb)) ;;
      r <- call_census censusID (census_SetStatus wTx status) ;;
      let '(wTx, err) := r in
      match err with
      | Some e => ret (Some e)
      | None =>
          err <- commit wTx ;;
          match err with
          | Some e => ret (Some e)
          | None => ret None
          end
      end
  end.

Definition AddPublicKeysAndStoreError (censusID : Z)
    (pubKs : list PublicKey) : M unit :=
  err <- AddPublicKeys censusID pubKs ;;
  match err with
  | Some e =>
      log "debug" "[CensusID=%d] error: %s" [ArgStr e] ;;
      err2 <- SetStatus censusID e ;;
      match err2 with
      | Some e2 =>
          log "error"
              "Error while trying to store CensusID:%d status: %s. Error: %s"
              [ArgInt censusID; ArgStr e; ArgStr e2]
      | None => ret tt
      end
  | None => ret tt
  end.

(** *** Sequences of calls *)

(** [n] calls of [m], one after the other, with their results in order. *)
Fixpoint times {A} (n : nat) (m : M A) : M (list A) :=
  match n with
  | O => ret []
  | S n' => r <- m ;; rs <- times n' m ;; ret (r :: rs)
  end.

(** A call of the public interface. *)
Inductive call :=
| CallNewCensus
| CallCloseCensus (censusID : Z)
| CallCensusRoot (censusID : Z)
| CallCensusInfo (censusID : Z)
| CallAddPublicKeys (censusID : Z) (pubKs : list PublicKey)
| CallAddPublicKeysAndStoreError (censusID : Z) (pubKs : list PublicKey)
| CallSetStatus (censusID : Z) (status : string).

Definition exec (c : call) : M unit :=
  match c with
  | CallNewCensus => NewCensus ;; ret tt
  | CallCloseCensus censusID => CloseCensus censusID ;; ret tt
  | CallCensusRoot censusID => CensusRoot censusID ;; ret tt
  | CallCensusInfo censusID => CensusInfo censusID ;; ret tt
  | CallAddPublicKeys censusID pubKs => AddPublicKeys censusID pubKs ;; ret tt
  | CallAddPublicKeysAndStoreError censusID pubKs =>
      AddPublicKeysAndStoreError censusID pubKs
  | CallSetStatus censusID status => SetStatus censusID status ;; ret tt
  end.

(** The calls of one process, in order; a panic ends the process. *)
Fixpoint run (cs : list call) : M unit :=
  match cs with
  | [] => ret tt
  | c :: cs' => exec c ;; run cs'
  end.

(** The counter as the control database holds it. *)
Definition counter (d : Database.Store) : option Z :=
  d !! dbKeyNextCensusID ≫= LittleEndian.Uint64.

(** The calls of [pebbledb.New] and the objects of [census.New] that a
    trace records for one identifier. *)
Definition opens_of (censusID : Z) (t : list Event) : list string :=
  omap (fun e => match e with
                 | EvOpen i path =>
                     if decide (i = censusID) then Some path else None
                 | _ => None
                 end) t.

Definition handles_of (censusID : Z) (t : list Event) : list nat :=
  omap (fun e => match e with
                 | EvCensus i handle =>
                     if decide (i = censusID) then Some handle else None
                 | _ => None
                 end) t.

(** The engine of the control database fails no operation. *)
Definition database_reliable : Prop :=
  forall o d, db_fault o d = (None, d).

(** Every database can be opened and every census can be built on it. *)
Definition storage_available : Prop :=
  (forall path d, exists database d',
      pebbledb_New path d = (inl database, d'))
  /\ (forall database d, exists c d', census_New database d = (inl c, d')).

(** The process that follows a restart: the control database and the file
    system are kept, the memory of the process is lost. *)
Definition restart (s : State) : outcome (option error) :=
  New (db s) (subDBsPath s) (disk s).

(** The handles of the registry are addresses of census objects, no two
    identifiers share one, and the object of an identifier is the only one
    that was ever built for it. *)
Definition registry_ok (s : State) : Prop :=
  (forall censusID handle,
      censuses s !! censusID = Some handle -> (handle < length (heap s))%nat)
  /\ (forall censusID handle,
        handle ∈ handles_of censusID (trace s) ->
        (handle < length (heap s))%nat)
  /\ (forall i j handle,
        handle ∈ handles_of i (trace s) ->
        handle ∈ handles_of j (trace s) -> i = j)
  /\ (forall censusID,
        handles_of censusID (trace s)
        = option_list (censuses s !! censusID)).

(** [s'] comes after [s] in a process: the directory is the same, what the
    registry holds in [s] it holds in [s'], and nothing was opened or built
    in between for an identifier the registry holds in [s]. *)
Definition extends (s s' : State) : Prop :=
  subDBsPath s' = subDBsPath s
  /\ (length (heap s) <= length (heap s'))%nat
  /\ (forall censusID handle,
        censuses s !! censusID = Some handle ->
        censuses s' !! censusID = Some handle
        /\ opens_of censusID (trace s') = opens_of censusID (trace s)
        /\ handles_of censusID (trace s') = handles_of censusID (trace s)).

(** A computation keeps the registry: whether it returns or panics, its
    last state comes after the first, and is a good registry when the first
    is. *)
Definition preserves {A} (m : M A) : Prop :=
  forall s,
    extends s (final (m s))
    /\ (registry_ok s -> registry_ok (final (m s))).

(** The identifiers that a sequence of [NewCensus] calls returned with a
    [nil] error, in order. *)
Definition succeeded (rs : list (Z * option error)) : list Z :=
  omap (fun r : Z * option error =>
          match r.2 with
          | None => Some r.1
          | Some _ => None
          end) rs.

(** The value under the counter key, when there is one, has the eight bytes
    that [binary.LittleEndian.Uint64] reads. *)
Definition counter_readable (d : Database.Store) : Prop :=
  forall b, d !! dbKeyNextCensusID = Some b -> (8 <= length b)%nat.

End WithCollaborators.

End CensusBuilder.

(** *** Collaborators for the examples *)

Module Reference.

#[global] Instance PublicKey_eq_dec : EqDecision PublicKey.
Proof. solve_decision. Defined.

(** What the database of one census holds. *)
Record content := mkContent { members : list PublicKey; closed : bool }.

(** The keys of a batch are added one by one; [i] is the position of the
    next key in the batch.  A key that is a member already is rejected. *)
Fixpoint add_keys (i : Z) (pubKs members : list PublicKey)
  : list Invalid * list PublicKey :=
  match pubKs with
  | [] => ([], members)
  | k :: rest =>
      if decide (k ∈ members) then
        let '(invalids, members') := add_keys (i + 1) rest members in
        (mkInvalid i "key already exists" :: invalids, members')
      else add_keys (i + 1) rest (members ++ [k])
  end.

Definition dbKeyStatus : string := "status".

(** Modelled from the spec: the identity set (package [census]) and the
    database engine it is opened on (package [pebbledb]) are not among the
    sources.  The file system maps the directory of a census database to its
    content, a list of member keys and the closed flag; opening a directory
    creates it when it is absent and keeps what it holds otherwise; a census
    object is its directory.  Adding a batch rejects the keys that are
    members already and fails on a closed census, the root is read from a
    closed census, and the status is written through the transaction that is
    handed in. *)
Definition collaborators : Collaborators := {|
  Disk := gmap string content;
  SubDB := string;
  Census := string;
  pebbledb_New path d :=
    (inl path,
     match d !! path with
     | Some _ => d
     | None => <[path := mkContent [] false]> d
     end);
  census_New database d := (inl database, d);
  census_Close c d :=
    match d !! c with
    | Some x => (None, c, <[c := mkContent (members x) true]> d)
    | None => (Some "pebble: not found", c, d)
    end;
  census_Root c d :=
    match d !! c with
    | Some x =>
        if closed x
        then (LittleEndian.PutUint64 (Z.of_nat (length (members x))), None, c, d)
        else ([], Some "census not closed", c, d)
    | None => ([], Some "pebble: not found", c, d)
    end;
  census_AddPublicKeys pubKs c d :=
    match d !! c with
    | Some x =>
        if closed x then ([], Some "census closed", c, d)
        else
          let '(invalids, members') := add_keys 0 pubKs (members x) in
          (invalids, None, c, <[c := mkContent members' false]> d)
    | None => ([], Some "pebble: not found", c, d)
    end;
  census_SetStatus wTx status c d :=
    (Database.Set_ wTx dbKeyStatus (String.list_byte_of_string status),
     None, c, d);
  db_fault o d := (None, d);
|}.

(** A file system on which no database can be opened. *)
Definition unavailable : Collaborators := {|
  Disk := unit;
  SubDB := unit;
  Census := unit;
  pebbledb_New path d := (inr "pebble: permission denied", d);
  census_New database d := (inl tt, d);
  census_Close c d := (None, c, d);
  census_Root c d := ([], None, c, d);
  census_AddPublicKeys pubKs c d := ([], None, c, d);
  census_SetStatus wTx status c d := (wTx, None, c, d);
  db_fault o d := (None, d);
|}.

(** A control database whose engine fails as scheduled: the storage is the
    list of what the engine answers to the coming operations of the control
    database, an error or none, and past the end of the list no operation
    fails.  The census databases open and the censuses take every batch. *)
Definition scheduled : Collaborators := {|
  Disk := list (option error);
  SubDB := unit;
  Census := unit;
  pebbledb_New path d := (inl tt, d);
  census_New database d := (inl tt, d);
  census_Close c d := (None, c, d);
  census_Root c d := ([], None, c, d);
  census_AddPublicKeys pubKs c d := ([], None, c, d);
  census_SetStatus wTx status c d := (wTx, None, c, d);
  db_fault o d :=
    match d with
    | answer :: rest => (answer, rest)
    | [] => (None, [])
    end;
|}.

(** A census that checks the keys of a batch, rejecting the keys that
    repeat a key of the batch, and then fails to store the batch: it
    reports the rejected keys together with its error. *)
Definition aborting : Collaborators := {|
  Disk := unit;
  SubDB := unit;
  Census := unit;
  pebbledb_New path d := (inl tt, d);
  census_New database d := (inl tt, d);
  census_Close c d := (None, c, d);
  census_Root c d := ([], None, c, d);
  census_AddPublicKeys pubKs c d :=
    ((add_keys 0 pubKs []).1, Some "pebble: batch commit failed", c, d);
  census_SetStatus wTx status c d := (wTx, None, c, d);
  db_fault o d := (None, d);
|}.

End Reference.

(** ** The ledger of vote packages (package [db]) *)

Module SQLite.

(** Modelled from the spec: [types.CensusProof] and [types.VotePackage] are
    not among the sources.  A vote package holds a signature, the index, the
    public key and the Merkle proof of its census proof, and the vote; the
    binary fields are taken as the bytes that are stored. *)
Record CensusProof := mkCensusProof {
  Index : Z;
  PublicKey : list byte;
  MerkleProof : list byte;
}.

Record VotePackage := mkVotePackage {
  Signature : list byte;
  censusProof : CensusProof;
  Vote : list byte;
}.

(** A row of the table [votepackages]; [insertedDatetime] is the
    [CURRENT_TIMESTAMP] of the insertion, which SQLite gives to the second:
    it is counted in seconds here. *)
Record row := mkRow {
  censusRoot : list byte;
  signature : list byte;
  indx : Z;
  publicKey : list byte;
  merkleproof : list byte;
  vote : list byte;
  insertedDatetime : Z;
}.

(** The database: the table [votepackages] when it exists.  [indx] is the
    [INTEGER PRIMARY KEY], so the rows are kept by increasing [indx], the
    order in which a scan of the table reads them.  The functions below say
    what the statements do on the table; an error of the driver or of the
    disk, which each function hands to its caller as it is, is not part of
    this model. *)
Record SQLite := mkSQLite { votepackages : option (list row) }.

Inductive sqlite_error :=
| ErrNoSuchTable (table : string)
| ErrConstraintUnique (column : string).

(** [CREATE TABLE IF NOT EXISTS votepackages(...)] *)
Definition Migrate (r : SQLite) : SQLite * option sqlite_error :=
  match votepackages r with
  | Some _ => (r, None)
  | None => (mkSQLite (Some []), None)
  end.

Fixpoint insert_row (x : row) (rows : list row) : list row :=
  match rows with
  | [] => [x]
  | y :: rest => if indx x <? indx y then x :: rows else y :: insert_row x rest
  end.

(** The three [UNIQUE] columns, in the order SQLite checks them: the primary
    key, then the indexes of [publicKey] and of [merkleproof]. *)
Definition unique_violation (x : row) (rows : list row) : option string :=
  if bool_decide (Exists (fun y => indx y = indx x) rows) then Some "indx"
  else if bool_decide (Exists (fun y => publicKey y = publicKey x) rows)
  then Some "publicKey"
  else if bool_decide (Exists (fun y => merkleproof y = merkleproof x) rows)
  then Some "merkleproof"
  else None.

(** No row of the table has the index, the public key or the Merkle proof
    of the vote package. *)
Definition accepts (rows : list row) (v : VotePackage) : Prop :=
  Forall (fun y => indx y <> Index (censusProof v)
                   /\ publicKey y <> PublicKey (censusProof v)
                   /\ merkleproof y <> MerkleProof (censusProof v)) rows.

(** The row that [INSERT INTO votepackages(...) values(?, ?, ?, ?, ?, ?,
    CURRENT_TIMESTAMP)] writes for the arguments of [stmt.Exec], with [now]
    the clock of the database. *)
Definition row_of (now : Z) (root : list byte) (v : VotePackage) : row :=
  {| censusRoot := root;
     signature := Signature v;
     indx := Index (censusProof v);
     publicKey := PublicKey (censusProof v);
     merkleproof := MerkleProof (censusProof v);
     vote := Vote v;
     insertedDatetime := now |}.

(** [StoreVotePackage(censusRoot, vote)], at the time [now]. *)
Definition StoreVotePackage (now : Z) (root : list byte) (v : VotePackage)
    (r : SQLite) : SQLite * option sqlite_error :=
  match votepackages r with
  | None => (r, Some (ErrNoSuchTable "votepackages"))
  | Some rows =>
      let x := row_of now root v in
      match unique_violation x rows with
      | Some column => (r, Some (ErrConstraintUnique column))
      | None => (mkSQLite (Some (insert_row x rows)), None)
      end
  end.

(** [ORDER BY datetime(InsertedDatetime) DESC].  SQL leaves the order of rows
    with the same datetime open; here they stay in the order of the scan. *)
Fixpoint insert_desc (x : row) (sorted : list row) : list row :=
  match sorted with
  | [] => [x]
  | y :: rest =>
      if insertedDatetime x <? insertedDatetime y
      then y :: insert_desc x rest
      else x :: sorted
  end.

Definition order_by_datetime_desc (rows : list row) : list row :=
  foldr insert_desc [] rows.

(** [x] comes before [y] in a descending order of the datetime. *)
Definition newer_first (x y : row) : Prop :=
  insertedDatetime y <= insertedDatetime x.

(** The rows of a census root, as the [WHERE] clause selects them. *)
Definition rows_of_root (root : list byte) (rows : list row) : list row :=
  filter (fun x => censusRoot x = root) rows.

(** [rows.Scan] of the selected columns into a [types.VotePackage]. *)
Definition scan (x : row) : VotePackage :=
  {| Signature := signature x;
     censusProof := {| Index := indx x;
                       PublicKey := publicKey x;
                       MerkleProof := merkleproof x |};
     Vote := vote x |}.

Definition ReadVotePackagesByCensusRoot (root : list byte) (r : SQLite)
  : list VotePackage * option sqlite_error :=
  match votepackages r with
  | None => ([], Some (ErrNoSuchTable "votepackages"))
  | Some rows =>
      (map scan (order_by_datetime_desc (rows_of_root root rows)), None)
  end.

(** The constraints of the table: the rows are kept by strictly increasing
    [indx], and no two rows have the same [publicKey] or the same
    [merkleproof]. *)
Definition ledger_ok (rows : list row) : Prop :=
  StronglySorted (fun x y => indx x < indx y) rows
  /\ NoDup (map publicKey rows)
  /\ NoDup (map merkleproof rows).

(** A sequence of [StoreVotePackage] calls, each with its time, census root
    and vote package; the errors are dropped. *)
Definition store_all (ops : list (Z * list byte * VotePackage)) (r : SQLite)
  : SQLite :=
  foldl (fun r op => (StoreVotePackage op.1.1 op.1.2 op.2 r).1) r ops.

End SQLite.

(** * Properties *)

Module UintFacts.
Import Uint64.

Lemma wrap_range z : in_range (wrap z).
Proof. unfold in_range, wrap, modulus. apply Z.mod_pos_bound. lia. Qed.

Lemma wrap_small z : in_range z -> wrap z = z.
Proof. unfold in_range, wrap. intros. by apply Z.mod_small. Qed.

Lemma to_int_inj x y :
  in_range x -> in_range y -> to_int x = to_int y -> x = y.
Proof.
  unfold in_range, to_int, modulus. intros Hx Hy.
  destruct (Z.ltb_spec x (2 ^ 63)), (Z.ltb_spec y (2 ^ 63)); lia.
Qed.

End UintFacts.

Module LittleEndianFacts.
Import LittleEndian.

Lemma Z_of_byte_of_Z v : Z_of_byte (byte_of_Z v) = v mod 2 ^ 8.
Proof.
  unfold Z_of_byte, byte_of_Z.
  assert (Hb : 0 <= v mod 256 < 256) by (apply Z.mod_pos_bound; lia).
  destruct (Byte.of_N (Z.to_N (v mod 256))) as [b|] eqn:E; simpl.
  - apply Byte.to_of_N in E. rewrite E. rewrite Z2N.id by lia. reflexivity.
  - apply Byte.of_N_None_iff in E. lia.
Qed.

Lemma Z_of_byte_range b : 0 <= Z_of_byte b < 256.
Proof.
  unfold Z_of_byte. pose proof (Byte.to_N_bounded b). lia.
Qed.

(** One byte of the encoding contributes the bits [8*i .. 8*i+7]. *)
Lemma testbit_slice v i n :
  0 <= i -> 0 <= n ->
  Z.testbit (Z.shiftl (Z_of_byte (byte_of_Z (Z.shiftr v i))) i) n
  = (i <=? n) && (n <? i + 8) && Z.testbit v n.
Proof.
  intros Hi Hn. rewrite Z_of_byte_of_Z, Z.shiftl_spec by lia.
  destruct (Z.leb_spec i n); simpl.
  - rewrite Z.testbit_mod_pow2 by lia.
    rewrite Z.shiftr_spec by lia.
    replace (n - i + i) with n by lia.
    destruct (Z.ltb_spec (n - i) 8), (Z.ltb_spec n (i + 8)); simpl; try lia; reflexivity.
  - apply Z.testbit_neg_r. lia.
Qed.

Lemma testbit_slice0 v n :
  0 <= n ->
  Z.testbit (Z_of_byte (byte_of_Z v)) n = (n <? 8) && Z.testbit v n.
Proof.
  intros Hn. rewrite Z_of_byte_of_Z. by rewrite Z.testbit_mod_pow2 by lia.
Qed.

(** Decoding what was encoded gives the value back. *)
Lemma Uint64_PutUint64 v :
  Uint64.in_range v -> Uint64 (PutUint64 v) = Some v.
Proof.
  unfold Uint64.in_range, Uint64.modulus. intros Hv.
  unfold PutUint64, Uint64. f_equal.
  apply Z.bits_inj'. intros n Hn.
  rewrite !Z.lor_spec, !testbit_slice, testbit_slice0 by lia.
  destruct (Z.ltb_spec n 64) as [Hlt|Hge].
  - repeat match goal with
           | |- context [Z.leb ?a ?b] =>
               destruct (Z.leb_spec a b); try (exfalso; lia); simpl
           | |- context [Z.ltb ?a ?b] =>
               destruct (Z.ltb_spec a b); try (exfalso; lia); simpl
           end;
      rewrite ?orb_false_r; reflexivity.
  - assert (Z.testbit v n = false) as ->.
    { rewrite <- (Z.mod_small v (2 ^ 64)) by lia.
      apply Z.mod_pow2_bits_high. lia. }
    by rewrite !andb_false_r.
Qed.

Lemma PutUint64_length v : length (PutUint64 v) = 8%nat.
Proof. reflexivity. Qed.

Lemma lor_lt_pow2 a b k :
  0 <= k -> 0 <= a < 2 ^ k -> 0 <= b < 2 ^ k -> 0 <= Z.lor a b < 2 ^ k.
Proof.
  intros Hk Ha Hb.
  assert (Hn : 0 <= Z.lor a b) by (apply Z.lor_nonneg; lia).
  split; [exact Hn|].
  destruct (Z.eq_dec (Z.lor a b) 0) as [->|Hne]; [lia|].
  assert (0 < k).
  { destruct (Z.eq_dec k 0) as [->|]; [|lia].
    assert (a = 0) as -> by (simpl in *; lia).
    assert (b = 0) as -> by (simpl in *; lia).
    by simpl in Hne. }
  apply Z.log2_lt_pow2; [lia|].
  rewrite Z.log2_lor by lia.
  apply Z.max_lub_lt.
  - destruct (Z.eq_dec a 0) as [->|]; [simpl; lia|]. apply Z.log2_lt_pow2; lia.
  - destruct (Z.eq_dec b 0) as [->|]; [simpl; lia|]. apply Z.log2_lt_pow2; lia.
Qed.

Lemma shiftl_byte_lt b i :
  0 <= i <= 56 -> 0 <= Z.shiftl (Z_of_byte b) i < 2 ^ 64.
Proof.
  intros Hi. pose proof (Z_of_byte_range b) as Hb.
  rewrite Z.shiftl_mul_pow2 by lia.
  assert (H1 : 0 < 2 ^ i) by (apply Z.pow_pos_nonneg; lia).
  assert (H2 : 2 ^ i <= 2 ^ 56) by (apply Z.pow_le_mono_r; lia).
  change (2 ^ 64) with (256 * 2 ^ 56).
  generalize dependent (2 ^ i). generalize (2 ^ 56). intros. nia.
Qed.

(** The decoded value always fits 64 bits. *)
Lemma Uint64_range b v : Uint64 b = Some v -> Uint64.in_range v.
Proof.
  unfold Uint64. intros H.
  do 8 (destruct b as [|? b]; [discriminate H|]).
  injection H as <-.
  unfold Uint64.in_range, Uint64.modulus.
  do 7 (apply lor_lt_pow2; [lia | | apply shiftl_byte_lt; lia]).
  match goal with |- 0 <= Z_of_byte ?x < _ => pose proof (Z_of_byte_range x) end.
  lia.
Qed.

(** Only the first eight bytes count. *)
Lemma Uint64_take b : Uint64 (take 8 b) = Uint64 b.
Proof. do 8 (destruct b as [|? b]; [done|]). reflexivity. Qed.

Lemma Uint64_long b : (8 <= length b)%nat -> is_Some (Uint64 b).
Proof.
  intros H. do 8 (destruct b as [|? b]; [simpl in H; lia|]). by eexists.
Qed.

Lemma Uint64_short b : (length b < 8)%nat -> Uint64 b = None.
Proof.
  intros H. do 8 (destruct b as [|? b]; [done|]). simpl in H. lia.
Qed.

End LittleEndianFacts.

Module StrFacts.
Import Str.

Lemma app_nil_l (t : string) : "" +:+ t = t.
Proof. reflexivity. Qed.

Lemma app_cons c (s t : string) : String c s +:+ t = String c (s +:+ t).
Proof. reflexivity. Qed.

Lemma app_assoc (s t u : string) : (s +:+ t) +:+ u = s +:+ (t +:+ u).
Proof. induction s as [|c s IH]; [done|]. by rewrite !app_cons, IH. Qed.

Lemma app_nil_r (s : string) : s +:+ "" = s.
Proof. induction s as [|c s IH]; [done|]. by rewrite app_cons, IH. Qed.

Lemma all_chars_app p s t :
  all_chars p (s +:+ t) = all_chars p s && all_chars p t.
Proof.
  induction s as [|c s IH]; [done|].
  rewrite app_cons. simpl. rewrite IH. by destruct (p c).
Qed.

End StrFacts.

Module StrconvFacts.
Import Strconv.

Lemma Itoa_inj i j : Itoa i = Itoa j -> i = j.
Proof. apply pretty_Z_inj. Qed.

Lemma pretty_N_char_decimal x : is_decimal_char (pretty_N_char x) = true.
Proof. unfold pretty_N_char. repeat case_match; reflexivity. Qed.

(** The digits are put in front of the accumulator. *)
Lemma pretty_N_go_prefix (x : N) :
  forall s, exists p,
    pretty_N_go x s = p +:+ s
    /\ Str.all_chars is_decimal_char p = true
    /\ ((0 < x)%N -> p <> "").
Proof.
  induction (N.lt_wf_0 x) as [x _ IH]. intros s.
  destruct (decide (x = 0%N)) as [->|Hx].
  - exists "". rewrite pretty_N_go_0. split; [done|]. split; [done|lia].
  - rewrite pretty_N_go_step by lia.
    destruct (IH (x `div` 10)%N) with (s := String (pretty_N_char (x `mod` 10)) s)
      as (p & Hp & Hd & _).
    { apply N.div_lt; lia. }
    exists (p +:+ String (pretty_N_char (x `mod` 10)) "").
    rewrite Hp. split; [|split].
    + by rewrite StrFacts.app_assoc.
    + rewrite StrFacts.all_chars_app, Hd. simpl. by rewrite pretty_N_char_decimal.
    + intros _. by destruct p.
Qed.

Lemma pretty_N_plain (x : N) :
  pretty x <> "" /\ Str.all_chars is_decimal_char (pretty x) = true.
Proof.
  unfold pretty, pretty_N. case_decide; [done|].
  destruct (pretty_N_go_prefix x "") as (p & -> & Hd & Hne).
  rewrite StrFacts.app_nil_r.
  split; [apply Hne; lia | done].
Qed.

(** What [Itoa] prints is not empty and holds digits and the sign only. *)
Lemma Itoa_plain i :
  Itoa i <> "" /\ Str.all_chars is_decimal_char (Itoa i) = true.
Proof.
  unfold Itoa, pretty, pretty_Z. destruct i as [|x|x]; [done| |].
  - apply (pretty_N_plain (Npos x)).
  - split; [done|]. simpl. apply (pretty_N_plain (Npos x)).
Qed.

End StrconvFacts.

Module FilepathFacts.
Import Filepath.

Example Join_abs : Join ["/var/lib/censuses"; "12"] = "/var/lib/censuses/12".
Proof. reflexivity. Qed.

Example Join_dots : Join ["a/./b//../c/"; "7"] = "a/c/7".
Proof. reflexivity. Qed.

Example Join_empty_root : Join [""; "7"] = "7".
Proof. reflexivity. Qed.

Example Join_parent : Join ["../.."; "7"] = "../../7".
Proof. reflexivity. Qed.

Example Join_root_parent : Join ["/.."; "7"] = "/7".
Proof. reflexivity. Qed.

Lemma elements_nonempty path : elements path <> [].
Proof.
  destruct path as [|c rest]; simpl; [done|].
  case_decide; [done|]. by destruct (elements rest).
Qed.

Lemma elements_no_separator name :
  Str.all_chars plain_char name = true -> elements name = [name].
Proof.
  induction name as [|c rest IH]; simpl; [done|].
  intros [Hc Hrest]%andb_true_iff. rewrite (IH Hrest).
  unfold plain_char in Hc. case_decide; [|done].
  subst c. done.
Qed.

Lemma elements_app a b :
  elements (a +:+ "/" +:+ b) = elements a ++ elements b.
Proof.
  induction a as [|c a IH]; [done|].
  rewrite StrFacts.app_cons. simpl. rewrite IH.
  case_decide; [done|].
  pose proof (elements_nonempty a). by destruct (elements a).
Qed.

Lemma clean_step_plain r out name :
  plain name -> clean_step r out name = name :: out.
Proof.
  intros [Hne Hch]. unfold clean_step.
  case_decide as H1; [by destruct H1 as [->| ->]|].
  case_decide as H2; [by subst name|]. done.
Qed.

Lemma concat_snoc (l : list string) (a : string) :
  String.concat "/" (l ++ [a])
  = match l with
    | [] => a
    | _ :: _ => String.concat "/" l +:+ "/" +:+ a
    end.
Proof.
  induction l as [|x l IH]; [done|].
  destruct l as [|y l]; [done|].
  change (String.concat "/" ((x :: y :: l) ++ [a]))
    with (x +:+ "/" +:+ String.concat "/" ((y :: l) ++ [a])).
  rewrite IH.
  change (String.concat "/" (x :: y :: l))
    with (x +:+ "/" +:+ String.concat "/" (y :: l)).
  by rewrite !StrFacts.app_assoc.
Qed.

(** Joining a directory with a plain name puts the name, unchanged, at the
    end of a prefix that depends on the directory only. *)
Lemma Join_plain root name :
  plain name -> Join [root; name] = join_prefix root +:+ name.
Proof.
  intros Hp. pose proof Hp as [Hne Hch].
  unfold Join, join_prefix. case_decide as Hroot.
  - rewrite decide_False by done.
    change (String.concat "/" [name]) with name.
    unfold Clean. rewrite (elements_no_separator _ Hch). simpl.
    rewrite (clean_step_plain _ _ _ Hp). simpl.
    assert (rooted name = false) as ->.
    { destruct name as [|c rest]; [done|]. simpl in *.
      apply andb_true_iff in Hch as [Hc _]. unfold plain_char in Hc.
      case_bool_decide; [|done]. subst c. done. }
    rewrite StrFacts.app_nil_l, decide_False by done. done.
  - change (String.concat "/" [root; name]) with (root +:+ "/" +:+ name).
    unfold Clean.
    assert (rooted (root +:+ "/" +:+ name) = rooted root) as ->.
    { by destruct root. }
    rewrite elements_app, (elements_no_separator _ Hch), foldl_app. simpl.
    rewrite (clean_step_plain _ _ _ Hp). simpl.
    rewrite concat_snoc.
    set (pre := if rooted root then "/" else "").
    set (out := rev (foldl (clean_step (rooted root)) [] (elements root))).
    assert (forall q : string, q +:+ name <> "") as Hq.
    { intros q. destruct q; [done|]. by rewrite StrFacts.app_cons. }
    destruct out as [|x l].
    + rewrite decide_False; [by rewrite StrFacts.app_nil_r|].
      apply Hq.
    + rewrite decide_False; [by rewrite !StrFacts.app_assoc|].
      rewrite <- !StrFacts.app_assoc. apply Hq.
Qed.

(** Distinct plain names give distinct paths in the same directory. *)
Lemma Join_plain_inj root a b :
  plain a -> plain b -> Join [root; a] = Join [root; b] -> a = b.
Proof.
  intros Ha Hb. rewrite !Join_plain by done.
  apply (inj (String.app (join_prefix root))).
Qed.

End FilepathFacts.
(** ** The census builder *)

Module CensusBuilderFacts.
Import CensusBuilder.

Section WithCollaborators.

Context `{Collab : Collaborators}.

(** *** The control database *)

Lemma returns_final {A} (o : outcome A) a :
  result o = Some a -> o = Returns (final o) a.
Proof. destruct o; simpl; congruence. Qed.

Lemma Get_ReadTx (d : Database.Store) key :
  Database.Get (Database.ReadTx d) key
  = match d !! key with
    | Some v => inl v
    | None => inr Database.ErrKeyNotFound
    end.
Proof. unfold Database.Get, Database.ReadTx. simpl. by rewrite (left_id_L ∅ (∪)). Qed.

Lemma Get_WriteTx (d : Database.Store) key :
  Database.Get (Database.WriteTx d) key
  = match d !! key with
    | Some v => inl v
    | None => inr Database.ErrKeyNotFound
    end.
Proof. apply Get_ReadTx. Qed.

Lemma Commit_Set (d : Database.Store) key value :
  Database.Commit (Database.Set_ (Database.WriteTx d) key value) d
  = <[key := value]> d.
Proof.
  unfold Database.Commit, Database.Set_, Database.WriteTx. simpl.
  by rewrite insert_empty, <- insert_union_singleton_l.
Qed.

Lemma Get_Set (tx : Database.Tx) key value :
  Database.Get (Database.Set_ tx key value) key = inl value.
Proof.
  unfold Database.Get, Database.Set_. simpl.
  by erewrite lookup_union_Some_l by apply lookup_insert_eq.
Qed.

Lemma counter_insert (d : Database.Store) v :
  Uint64.in_range v ->
  counter (<[dbKeyNextCensusID := LittleEndian.PutUint64 v]> d) = Some v.
Proof.
  intros Hv. unfold counter. rewrite lookup_insert_eq. simpl.
  by apply LittleEndianFacts.Uint64_PutUint64.
Qed.

Lemma set_disk_disk (s : State) : set_disk (disk s) s = s.
Proof. by destruct s. Qed.

(** The operations of a transaction, by what the engine answers. *)
Lemma tx_Get_unfold (tx : Database.Tx) key (s : State) :
  tx_Get tx key s
  = Returns (set_disk (db_fault (Database.OpGet key) (disk s)).2 s)
      match (db_fault (Database.OpGet key) (disk s)).1 with
      | Some err => inr err
      | None => Database.Get tx key
      end.
Proof. unfold tx_Get. by destruct (db_fault _ (disk s)). Qed.

Lemma setNextCensusID_unfold (wTx : Database.Tx) v (s : State) :
  let o := Database.OpSet dbKeyNextCensusID (LittleEndian.PutUint64 v) in
  setNextCensusID wTx v s
  = Returns (set_disk (db_fault o (disk s)).2 s)
      match (db_fault o (disk s)).1 with
      | Some err => (wTx, Some err)
      | None =>
          (Database.Set_ wTx dbKeyNextCensusID (LittleEndian.PutUint64 v),
           None)
      end.
Proof.
  unfold setNextCensusID, bind, tx_Set. simpl.
  by destruct (db_fault _ (disk s)) as [[err|] d].
Qed.

Lemma commit_unfold (wTx : Database.Tx) (s : State) :
  commit wTx s
  = let s1 := set_disk (db_fault Database.OpCommit (disk s)).2 s in
    match (db_fault Database.OpCommit (disk s)).1 with
    | Some err => Returns s1 (Some err)
    | None => Returns (set_db (Database.Commit wTx) s1) None
    end.
Proof. unfold commit. by destruct (db_fault _ (disk s)) as [[err|] d]. Qed.

Lemma getNextCensusID_unfold (rTx : Database.Tx) (s : State) :
  getNextCensusID rTx s
  = let s1 :=
      set_disk (db_fault (Database.OpGet dbKeyNextCensusID) (disk s)).2 s in
    match (db_fault (Database.OpGet dbKeyNextCensusID) (disk s)).1 with
    | Some err => Returns s1 (0, Some err)
    | None =>
        match Database.Get rTx dbKeyNextCensusID with
        | inr err => Returns s1 (0, Some err)
        | inl b =>
            match LittleEndian.Uint64 b with
            | Some v => Returns s1 (v, None)
            | None =>
                Panics s1
                  ("runtime error: index out of range [7] with length "
                   +:+ pretty (length b))
            end
        end
    end.
Proof.
  unfold getNextCensusID, bind. rewrite tx_Get_unfold. simpl.
  destruct (db_fault _ (disk s)) as [[err|] d]; simpl; [done|].
  destruct (Database.Get rTx dbKeyNextCensusID) as [b|err]; [|done].
  by destruct (LittleEndian.Uint64 b).
Qed.

(** The operations on a control database whose engine does not fail. *)
Lemma setNextCensusID_reliable (wTx : Database.Tx) v (s : State) :
  database_reliable ->
  setNextCensusID wTx v s
  = Returns s
      (Database.Set_ wTx dbKeyNextCensusID (LittleEndian.PutUint64 v), None).
Proof.
  intros Hr. rewrite setNextCensusID_unfold. cbv zeta. rewrite Hr. simpl.
  by rewrite set_disk_disk.
Qed.

Lemma commit_reliable (wTx : Database.Tx) (s : State) :
  database_reliable ->
  commit wTx s = Returns (set_db (Database.Commit wTx) s) None.
Proof.
  intros Hr. rewrite commit_unfold. cbv zeta. rewrite Hr. simpl.
  by rewrite set_disk_disk.
Qed.

Lemma getNextCensusID_reliable (rTx : Database.Tx) (s : State) :
  database_reliable ->
  getNextCensusID rTx s
  = match Database.Get rTx dbKeyNextCensusID with
    | inr err => Returns s (0, Some err)
    | inl b =>
        match LittleEndian.Uint64 b with
        | Some v => Returns s (v, None)
        | None =>
            Panics s
              ("runtime error: index out of range [7] with length "
               +:+ pretty (length b))
        end
    end.
Proof.
  intros Hr. rewrite getNextCensusID_unfold. cbv zeta. rewrite Hr. simpl.
  by rewrite set_disk_disk.
Qed.

(** Reading the counter through a transaction on the database. *)
Lemma getNextCensusID_counter (s : State) (d : Database.Store) v :
  database_reliable ->
  counter d = Some v ->
  getNextCensusID (Database.ReadTx d) s = Returns s (v, None).
Proof.
  intros Hr. rewrite (getNextCensusID_reliable _ _ Hr).
  unfold counter. rewrite Get_ReadTx.
  destruct (d !! dbKeyNextCensusID) as [b|]; [|done]. simpl.
  by intros ->.
Qed.

Lemma getNextCensusID_absent (s : State) (d : Database.Store) :
  database_reliable ->
  d !! dbKeyNextCensusID = None ->
  getNextCensusID (Database.ReadTx d) s
  = Returns s (0, Some Database.ErrKeyNotFound).
Proof.
  intros Hr H. rewrite (getNextCensusID_reliable _ _ Hr).
  by rewrite Get_ReadTx, H.
Qed.

(** *** Loading a census *)

Lemma loadCensusIfNotYet_cached censusID handle (s : State) :
  censuses s !! censusID = Some handle ->
  loadCensusIfNotYet censusID s = Returns s None.
Proof.
  intros H. unfold loadCensusIfNotYet, bind, gets. by rewrite H.
Qed.

Lemma loadCensusIfNotYet_available censusID (s : State) :
  storage_available ->
  exists s',
    loadCensusIfNotYet censusID s = Returns s' None
    /\ db s' = db s /\ subDBsPath s' = subDBsPath s.
Proof.
  intros [Hopen Hnew].
  unfold loadCensusIfNotYet, bind, gets.
  destruct (censuses s !! censusID) as [handle|] eqn:Hc; [by exists s|].
  unfold open_database.
  destruct (Hopen (census_path (subDBsPath s) censusID) (disk s))
    as (database & d' & ->).
  unfold new_census. simpl.
  destruct (Hnew database d') as (c & d'' & ->).
  unfold modify, ret. eexists. split; [reflexivity|]. done.
Qed.

(** *** Allocating an identifier *)

Lemma counter_range (d : Database.Store) v :
  counter d = Some v -> Uint64.in_range v.
Proof.
  unfold counter. destruct (d !! dbKeyNextCensusID) as [b|]; [|done].
  simpl. apply LittleEndianFacts.Uint64_range.
Qed.

(** A call of [NewCensus] whose census loads, on a control database whose
    engine does not fail: the identifier is the counter, and the counter is
    stored incremented. *)
Lemma NewCensus_returns (s s1 : State) v :
  database_reliable ->
  counter (db s) = Some v ->
  loadCensusIfNotYet v s = Returns s1 None ->
  db s1 = db s ->
  NewCensus s
  = Returns
      (emit (EvLog "debug" "[CensusID=%d] New census created" [ArgInt v])
         (set_db (fun _ => <[dbKeyNextCensusID :=
                               LittleEndian.PutUint64 (Uint64.add v 1)]> (db s))
            s1))
      (v, None).
Proof.
  intros Hr Hc Hload Hdb. unfold NewCensus.
  unfold bind at 1. unfold gets at 1.
  unfold bind at 1. rewrite (getNextCensusID_counter _ _ _ Hr Hc).
  unfold bind at 1. rewrite Hload.
  unfold bind at 1. unfold gets at 1.
  unfold bind at 1. rewrite (setNextCensusID_reliable _ _ _ Hr).
  unfold bind at 1. rewrite (commit_reliable _ _ Hr).
  unfold bind, log, modify, ret, set_db. simpl.
  by rewrite Commit_Set, Hdb.
Qed.

(** A call of [NewCensus] whose census does not load: the error is
    returned and the counter stays. *)
Lemma NewCensus_load_error (s s1 : State) v e :
  database_reliable ->
  counter (db s) = Some v ->
  loadCensusIfNotYet v s = Returns s1 (Some e) ->
  NewCensus s = Returns s1 (0, Some e).
Proof.
  intros Hr Hc Hload. unfold NewCensus.
  unfold bind at 1. unfold gets at 1.
  unfold bind at 1. rewrite (getNextCensusID_counter _ _ _ Hr Hc).
  unfold bind at 1. by rewrite Hload.
Qed.

Lemma NewCensus_available (s : State) v :
  storage_available ->
  database_reliable ->
  counter (db s) = Some v ->
  exists s',
    NewCensus s = Returns s' (v, None)
    /\ counter (db s') = Some (Uint64.add v 1)
    /\ subDBsPath s' = subDBsPath s.
Proof.
  intros Hav Hr Hc.
  destruct (loadCensusIfNotYet_available v s Hav) as (s1 & Hload & Hdb & Hp).
  eexists. split; [by apply NewCensus_returns|].
  simpl. split; [|done].
  apply counter_insert, UintFacts.wrap_range.
Qed.

Lemma times_NewCensus (N : nat) :
  storage_available ->
  database_reliable ->
  forall (s : State) v,
    counter (db s) = Some v ->
    exists s',
      times N NewCensus s
      = Returns s' (map (fun i => (Uint64.wrap (v + Z.of_nat i), None))
                        (seq 0 N))
      /\ counter (db s') = Some (Uint64.wrap (v + Z.of_nat N))
      /\ subDBsPath s' = subDBsPath s.
Proof.
  intros Hav Hr. induction N as [|N IH]; intros s v Hc.
  - exists s. simpl. split; [done|]. split; [|done].
    rewrite Z.add_0_r, UintFacts.wrap_small; [done|by eapply counter_range].
  - destruct (NewCensus_available s v Hav Hr Hc) as (s1 & Hnew & Hc1 & Hp1).
    destruct (IH s1 _ Hc1) as (s2 & Hrest & Hc2 & Hp2).
    exists s2. simpl. unfold bind at 1. rewrite Hnew.
    unfold bind at 1. rewrite Hrest. unfold ret.
    assert (Hshift : forall i : Z,
               Uint64.wrap (Uint64.add v 1 + i) = Uint64.wrap (v + (1 + i))).
    { intros i. unfold Uint64.add, Uint64.wrap.
      rewrite Zplus_mod_idemp_l. f_equal. lia. }
    split; [|split].
    + f_equal. f_equal.
      * rewrite Z.add_0_r, UintFacts.wrap_small; [done|by eapply counter_range].
      * rewrite <- seq_shift, map_map. apply map_ext. intros i.
        rewrite Hshift. do 2 f_equal. lia.
    + rewrite Hc2, Hshift. do 2 f_equal. lia.
    + congruence.
Qed.

(** *** Starting a builder *)

(** What [New] does, by what the engine answers to the read of the counter,
    to the write of the counter [0] and to the commit. *)
Lemma New_unfold (database : Database.Store) path d :
  New database path d
  = let get := db_fault (Database.OpGet dbKeyNextCensusID) d in
    let set := db_fault (Database.OpSet dbKeyNextCensusID
                           (LittleEndian.PutUint64 0)) get.2 in
    let written :=
      match set.1 with
      | Some e => Returns (fresh database path set.2) (Some e)
      | None =>
          match (db_fault Database.OpCommit set.2).1 with
          | Some e =>
              Returns (fresh database path
                         (db_fault Database.OpCommit set.2).2)
                      (Some e)
          | None =>
              Returns
                (fresh (<[dbKeyNextCensusID := LittleEndian.PutUint64 0]>
                          database)
                   path (db_fault Database.OpCommit set.2).2)
                None
          end
      end in
    let kept :=
      match (db_fault Database.OpCommit get.2).1 with
      | Some e =>
          Returns (fresh database path (db_fault Database.OpCommit get.2).2)
                  (Some e)
      | None =>
          Returns (fresh database path (db_fault Database.OpCommit get.2).2)
                  None
      end in
    match get.1 with
    | Some _ => written
    | None =>
        match database !! dbKeyNextCensusID with
        | None => written
        | Some b =>
            match LittleEndian.Uint64 b with
            | Some _ => kept
            | None =>
                Panics (fresh database path get.2)
                  ("runtime error: index out of range [7] with length "
                   +:+ pretty (length b))
            end
        end
    end.
Proof.
  assert (Hwritten : forall s : State,
             db s = database ->
             bind (setNextCensusID (Database.WriteTx database) 0)
               (fun r : Database.Tx * option error =>
                  let '(wTx, err) := r in
                  match err with
                  | Some e => ret (Some e)
                  | None =>
                      bind (commit wTx)
                        (fun err => match err with
                                    | Some e => ret (Some e)
                                    | None => ret None
                                    end)
                  end) s
             = let set := db_fault (Database.OpSet dbKeyNextCensusID
                                      (LittleEndian.PutUint64 0)) (disk s) in
               match set.1 with
               | Some e => Returns (set_disk set.2 s) (Some e)
               | None =>
                   match (db_fault Database.OpCommit set.2).1 with
                   | Some e =>
                       Returns
                         (set_disk (db_fault Database.OpCommit set.2).2 s)
                         (Some e)
                   | None =>
                       Returns
                         (set_db
                            (fun _ =>
                               <[dbKeyNextCensusID :=
                                   LittleEndian.PutUint64 0]> database)
                            (set_disk (db_fault Database.OpCommit set.2).2 s))
                         None
                   end
               end).
  { intros s Hs. unfold bind at 1. rewrite setNextCensusID_unfold.
    cbv zeta.
    destruct (db_fault (Database.OpSet _ _) (disk s)) as [[e|] d2]; simpl;
      [done|].
    unfold bind. rewrite commit_unfold. simpl.
    destruct (db_fault Database.OpCommit d2) as [[e|] d3]; simpl; [done|].
    unfold ret, set_db. simpl. by rewrite Hs, Commit_Set. }
  unfold New. unfold bind at 1. unfold gets at 1.
  unfold bind at 1. rewrite getNextCensusID_unfold. cbv zeta.
  rewrite Get_WriteTx.
  change (disk (fresh database path d)) with d. change (db (fresh database path d)) with database.
  destruct (db_fault (Database.OpGet dbKeyNextCensusID) d) as [[e|] d1];
    simpl.
  - by rewrite Hwritten.
  - destruct (database !! dbKeyNextCensusID) as [b|].
    + destruct (LittleEndian.Uint64 b) as [v|]; [|done].
      unfold bind, ret. rewrite commit_unfold. simpl.
      destruct (db_fault Database.OpCommit d1) as [[e|] d3]; simpl; [done|].
      unfold set_db, Database.Commit, Database.WriteTx. simpl.
      by rewrite (left_id_L ∅ (∪)).
    + by rewrite Hwritten.
Qed.

(** On a database without counter, [New] stores the counter [0]. *)
Lemma New_initializes (database : Database.Store) path d :
  database_reliable ->
  database !! dbKeyNextCensusID = None ->
  New database path d
  = Returns (fresh (<[dbKeyNextCensusID := LittleEndian.PutUint64 0]> database)
               path d)
            None.
Proof.
  intros Hr H. rewrite New_unfold. cbv zeta. rewrite !Hr. simpl.
  by rewrite H.
Qed.

(** On a database that holds a counter, [New] writes nothing when the read
    of the counter does not fail. *)
Lemma New_keeps (database : Database.Store) path d v :
  database_reliable ->
  counter database = Some v ->
  New database path d = Returns (fresh database path d) None.
Proof.
  intros Hr H. rewrite New_unfold. cbv zeta. rewrite !Hr. simpl.
  unfold counter in H.
  destruct (database !! dbKeyNextCensusID) as [b|]; [|done]. simpl in H.
  by rewrite H.
Qed.

(** When the engine fails the read of the counter, and neither the write
    nor the commit, [New] stores the counter [0] and returns a [nil] error,
    whatever the database holds. *)
Lemma New_read_error (database : Database.Store) path d e d1 d2 d3 :
  db_fault (Database.OpGet dbKeyNextCensusID) d = (Some e, d1) ->
  db_fault (Database.OpSet dbKeyNextCensusID (LittleEndian.PutUint64 0)) d1
  = (None, d2) ->
  db_fault Database.OpCommit d2 = (None, d3) ->
  New database path d
  = Returns (fresh (<[dbKeyNextCensusID := LittleEndian.PutUint64 0]> database)
               path d3)
            None.
Proof.
  intros Hget Hset Hcommit. rewrite New_unfold. cbv zeta.
  rewrite Hget. simpl. rewrite Hset. simpl. by rewrite Hcommit.
Qed.

(** C1.  On a control database without counter and whose engine does not
    fail, and with storage that can be opened, [New] followed by [N] calls
    of [NewCensus] returns the identifiers [0], [1], ..., [N-1] in this
    order, each with a [nil] error, and leaves the counter at [N]; [N] is at
    most [2^64], the number of [uint64] identifiers.  After a restart, [New]
    on the same database succeeds, the next [NewCensus] returns [N], the
    identifier after the last one, and the counter is stored as that
    identifier plus one. *)
Theorem NewCensus_sequential (database : Database.Store) path d (N : nat) :
  storage_available ->
  database_reliable ->
  database !! dbKeyNextCensusID = None ->
  Z.of_nat N <= 2 ^ 64 ->
  exists s0 sN : State,
    New database path d = Returns s0 None
    /\ times N NewCensus s0
       = Returns sN (map (fun i => (Z.of_nat i, None)) (seq 0 N))
    /\ counter (db sN) = Some (Uint64.wrap (Z.of_nat N))
    /\ exists s0' s' : State,
         restart sN = Returns s0' None
         /\ NewCensus s0' = Returns s' (Uint64.wrap (Z.of_nat N), None)
         /\ counter (db s')
            = Some (Uint64.add (Uint64.wrap (Z.of_nat N)) 1).
Proof.
  intros Hav Hr Hfresh HN.
  rewrite (New_initializes _ _ _ Hr Hfresh).
  set (s0 := fresh _ path d).
  assert (Hc0 : counter (db s0) = Some 0).
  { apply counter_insert. unfold Uint64.in_range, Uint64.modulus. lia. }
  destruct (times_NewCensus N Hav Hr s0 0 Hc0) as (sN & Hrun & HcN & HpN).
  exists s0, sN. split; [done|]. split; [|split].
  - rewrite Hrun. f_equal. apply map_ext_in. intros i Hi%in_seq.
    rewrite Z.add_0_l, UintFacts.wrap_small; [done|].
    unfold Uint64.in_range, Uint64.modulus. lia.
  - by rewrite HcN, Z.add_0_l.
  - rewrite Z.add_0_l in HcN. unfold restart.
    rewrite (New_keeps _ _ _ _ Hr HcN).
    set (s0' := fresh _ _ _).
    destruct (NewCensus_available s0' _ Hav Hr HcN) as (s' & Hnew & Hc' & _).
    by exists s0', s'.
Qed.

(** *** Reading the counter *)

(** C9, amended.  [getNextCensusID] returns the error of the read, with the
    identifier [0], when the read fails; it returns the little-endian value
    of the first eight bytes, a 64-bit number, with a [nil] error when the
    stored value has eight bytes or more; and it panics, with an index out
    of range, when the stored value has fewer than eight bytes.  What
    [setNextCensusID] wrote is read back, by every read of the transaction
    that does not fail. *)
Theorem getNextCensusID_total (rTx : Database.Tx) (s : State) :
  (forall s1 e,
      tx_Get rTx dbKeyNextCensusID s = Returns s1 (inr e) ->
      getNextCensusID rTx s = Returns s1 (0, Some e))
  /\ (forall s1 b,
        tx_Get rTx dbKeyNextCensusID s = Returns s1 (inl b) ->
        (8 <= length b)%nat ->
        exists v,
          LittleEndian.Uint64 (take 8 b) = Some v
          /\ Uint64.in_range v
          /\ getNextCensusID rTx s = Returns s1 (v, None))
  /\ (forall s1 b,
        tx_Get rTx dbKeyNextCensusID s = Returns s1 (inl b) ->
        (length b < 8)%nat ->
        getNextCensusID rTx s
        = Panics s1 ("runtime error: index out of range [7] with length "
                     +:+ pretty (length b)))
  /\ (forall v s1 wTx,
        Uint64.in_range v ->
        setNextCensusID rTx v s = Returns s1 (wTx, None) ->
        forall s2 b,
          tx_Get wTx dbKeyNextCensusID s1 = Returns s2 (inl b) ->
          getNextCensusID wTx s1 = Returns s2 (v, None)).
Proof.
  repeat split.
  - intros s1 e H. unfold getNextCensusID, bind. by rewrite H.
  - intros s1 b H Hlen. unfold getNextCensusID, bind. rewrite H.
    destruct (LittleEndianFacts.Uint64_long b Hlen) as [v Hv].
    exists v. rewrite LittleEndianFacts.Uint64_take, Hv.
    split; [done|]. split; [|done].
    by eapply LittleEndianFacts.Uint64_range.
  - intros s1 b H Hlen. unfold getNextCensusID, bind. rewrite H.
    by rewrite (LittleEndianFacts.Uint64_short b Hlen).
  - intros v s1 wTx Hv Hset s2 b Hget.
    rewrite setNextCensusID_unfold in Hset. cbv zeta in Hset.
    destruct (db_fault (Database.OpSet _ _) (disk s)) as [[e|] d1];
      simpl in Hset; [done|].
    injection Hset as <- <-.
    unfold getNextCensusID, bind. rewrite Hget.
    rewrite tx_Get_unfold in Hget.
    destruct (db_fault (Database.OpGet _) _) as [[e|] d2]; simpl in Hget;
      [done|].
    rewrite Get_Set in Hget. injection Hget as _ <-.
    by rewrite LittleEndianFacts.Uint64_PutUint64.
Qed.

(** *** The registry *)

Lemma extends_refl (s : State) : extends s s.
Proof. unfold extends. naive_solver. Qed.

Lemma extends_trans (s1 s2 s3 : State) :
  extends s1 s2 -> extends s2 s3 -> extends s1 s3.
Proof.
  intros (Hp1 & Hl1 & H1) (Hp2 & Hl2 & H2).
  split; [congruence|]. split; [lia|].
  intros censusID handle Hc.
  destruct (H1 _ _ Hc) as (Hc2 & Ho1 & Hh1).
  destruct (H2 _ _ Hc2) as (Hc3 & Ho2 & Hh2).
  split; [done|]. split; congruence.
Qed.

Lemma opens_of_snoc censusID (t : list Event) e :
  opens_of censusID (t ++ [e])
  = opens_of censusID t ++
    match e with
    | EvOpen i path => if decide (i = censusID) then [path] else []
    | _ => []
    end.
Proof.
  unfold opens_of. rewrite omap_app. f_equal.
  destruct e as [i path| |]; simpl; try done. by case_decide.
Qed.

Lemma handles_of_snoc censusID (t : list Event) e :
  handles_of censusID (t ++ [e])
  = handles_of censusID t ++
    match e with
    | EvCensus i handle => if decide (i = censusID) then [handle] else []
    | _ => []
    end.
Proof.
  unfold handles_of. rewrite omap_app. f_equal.
  destruct e as [|i handle|]; simpl; try done. by case_decide.
Qed.

Lemma preserves_ret {A} (a : A) : preserves (ret a).
Proof. intros s. split; [apply extends_refl|done]. Qed.

Lemma preserves_gets {A} (f : State -> A) : preserves (gets f).
Proof. intros s. split; [apply extends_refl|done]. Qed.

Lemma preserves_panic {A} msg : preserves (panic (A := A) msg).
Proof. intros s. split; [apply extends_refl|done]. Qed.

Lemma preserves_bind {A B} (m : M A) (k : A -> M B) :
  preserves m -> (forall a, preserves (k a)) -> preserves (bind m k).
Proof.
  intros Hm Hk s. unfold bind.
  destruct (Hm s) as [He Hok]. destruct (m s) as [s1 a|s1 msg]; simpl in *.
  - destruct (Hk a s1) as [He' Hok'].
    split; [by eapply extends_trans|auto].
  - done.
Qed.

Lemma preserves_log level format args : preserves (log level format args).
Proof.
  intros s. unfold log, modify, extends, registry_ok. simpl.
  setoid_rewrite opens_of_snoc. setoid_rewrite handles_of_snoc.
  setoid_rewrite app_nil_r. naive_solver.
Qed.

Lemma preserves_tx_Get tx key : preserves (tx_Get tx key).
Proof.
  intros s. rewrite tx_Get_unfold. simpl. split; [|done].
  unfold extends. simpl. naive_solver.
Qed.

Lemma preserves_setNextCensusID wTx v : preserves (setNextCensusID wTx v).
Proof.
  intros s. rewrite setNextCensusID_unfold. simpl. split; [|done].
  unfold extends. simpl. naive_solver.
Qed.

Lemma preserves_commit wTx : preserves (commit wTx).
Proof.
  intros s. rewrite commit_unfold. cbv zeta.
  destruct (db_fault Database.OpCommit (disk s)).1; simpl;
    (split; [|done]); unfold extends; simpl; naive_solver.
Qed.

Lemma preserves_call_census {A} censusID
    (method : Census -> Disk -> A * Census * Disk) :
  preserves (call_census censusID method).
Proof.
  intros s. unfold call_census.
  destruct (censuses s !! censusID) as [handle|];
    [|split; [apply extends_refl|done]].
  destruct (heap s !! handle) as [c|];
    [|split; [apply extends_refl|done]].
  destruct (method c (disk s)) as [[a c'] d]. simpl.
  unfold extends, registry_ok. simpl. rewrite length_insert. naive_solver.
Qed.

(** The state after [census.New] gave the object [c] for [censusID]. *)
Lemma registry_ok_register (s : State) censusID path c d :
  censuses s !! censusID = None ->
  registry_ok s ->
  registry_ok
    (set_censuses (fun m => <[censusID := length (heap s)]> m)
       (emit (EvCensus censusID (length (heap s)))
          (set_heap (fun h => h ++ [c])
             (set_disk d (emit (EvOpen censusID path) s))))).
Proof.
  intros Hnone (Hbound & Htrace & Hinj & Hone).
  assert (Hh : forall j, handles_of j (trace s ++ [EvOpen censusID path])
                         = handles_of j (trace s)).
  { intros j. by rewrite handles_of_snoc, app_nil_r. }
  unfold registry_ok. simpl. rewrite length_app. simpl.
  setoid_rewrite handles_of_snoc. setoid_rewrite Hh.
  split; [|split; [|split]].
  - intros j handle. rewrite lookup_insert.
    case_decide as Hd; [intros [= <-]; lia|]. intros Hj%Hbound. lia.
  - intros j handle [Hj|Hj]%elem_of_app.
    + apply Htrace in Hj. lia.
    + case_decide as Hd; [|by apply elem_of_nil in Hj].
      apply list_elem_of_singleton in Hj. lia.
  - intros i j handle [Hi|Hi]%elem_of_app [Hj|Hj]%elem_of_app.
    + by eapply Hinj.
    + case_decide as Hd; [|by apply elem_of_nil in Hj].
      apply list_elem_of_singleton in Hj. apply Htrace in Hi. lia.
    + case_decide as Hd; [|by apply elem_of_nil in Hi].
      apply list_elem_of_singleton in Hi. apply Htrace in Hj. lia.
    + repeat case_decide; try by (apply elem_of_nil in Hi || apply elem_of_nil in Hj).
      congruence.
  - intros j. rewrite lookup_insert. rewrite Hone.
    case_decide as Hj; [subst j; by rewrite Hnone|]. by rewrite app_nil_r.
Qed.

(** What [loadCensusIfNotYet] does, step by step. *)
Lemma loadCensusIfNotYet_unfold censusID (s : State) :
  loadCensusIfNotYet censusID s
  = match censuses s !! censusID with
    | Some _ => Returns s None
    | None =>
        let path := census_path (subDBsPath s) censusID in
        let '(r, d1) := pebbledb_New path (disk s) in
        let s1 := emit (EvOpen censusID path) (set_disk d1 s) in
        match r with
        | inr err => Returns s1 (Some err)
        | inl database =>
            let '(r2, d2) := census_New database d1 in
            match r2 with
            | inr err => Returns (set_disk d2 s1) (Some err)
            | inl c =>
                Returns
                  (set_censuses (fun m => <[censusID := length (heap s)]> m)
                     (emit (EvCensus censusID (length (heap s)))
                        (set_heap (fun h => h ++ [c]) (set_disk d2 s1))))
                  None
            end
        end
    end.
Proof.
  unfold loadCensusIfNotYet, bind, gets.
  destruct (censuses s !! censusID); [done|].
  unfold open_database, new_census. simpl.
  destruct (pebbledb_New _ (disk s)) as [[database|err] d1]; [|done].
  simpl. by destruct (census_New database d1) as [[c|err] d2].
Qed.

Lemma preserves_loadCensusIfNotYet censusID :
  preserves (loadCensusIfNotYet censusID).
Proof.
  intros s. rewrite loadCensusIfNotYet_unfold.
  destruct (censuses s !! censusID) as [handle|] eqn:Hc;
    [simpl; split; [apply extends_refl|done]|].
  assert (Hother : forall j handle, censuses s !! j = Some handle -> j <> censusID).
  { intros j handle Hj ->. congruence. }
  simpl.
  destruct (pebbledb_New _ (disk s)) as [[database|err] d1].
  - destruct (census_New database d1) as [[c|err] d2]; simpl.
    + split;
        [|intros Hok;
          exact (registry_ok_register
                   s censusID (census_path (subDBsPath s) censusID) c d2
                   Hc Hok)].
      unfold extends. simpl. rewrite length_app. simpl.
      split; [done|]. split; [lia|]. intros j handle Hj.
      pose proof (Hother _ _ Hj).
      rewrite lookup_insert_ne by done.
      rewrite !opens_of_snoc, !handles_of_snoc.
      rewrite !decide_False by done. by rewrite !app_nil_r.
    + unfold extends, registry_ok. simpl.
      setoid_rewrite opens_of_snoc. setoid_rewrite handles_of_snoc.
      setoid_rewrite app_nil_r. split; [|done].
      split; [done|]. split; [lia|]. intros j handle Hj.
      pose proof (Hother _ _ Hj). by rewrite decide_False, app_nil_r.
  - unfold extends, registry_ok. simpl.
    setoid_rewrite opens_of_snoc. setoid_rewrite handles_of_snoc.
    setoid_rewrite app_nil_r. split; [|done].
    split; [done|]. split; [lia|]. intros j handle Hj.
    pose proof (Hother _ _ Hj). by rewrite decide_False, app_nil_r.
Qed.

Ltac preserves_step :=
  first
    [ apply preserves_ret
    | apply preserves_gets
    | apply preserves_panic
    | apply preserves_log
    | apply preserves_tx_Get
    | apply preserves_setNextCensusID
    | apply preserves_commit
    | apply preserves_loadCensusIfNotYet
    | apply preserves_call_census
    | apply preserves_bind; [|intros ?]
    | match goal with
      | |- preserves (match ?x with _ => _ end) => destruct x
      end ].

Lemma preserves_getNextCensusID rTx : preserves (getNextCensusID rTx).
Proof. unfold getNextCensusID. repeat preserves_step. Qed.

Lemma preserves_NewCensus : preserves NewCensus.
Proof.
  unfold NewCensus. repeat (apply preserves_getNextCensusID || preserves_step).
Qed.

Lemma preserves_CloseCensus censusID : preserves (CloseCensus censusID).
Proof. unfold CloseCensus. repeat preserves_step. Qed.

Lemma preserves_CensusRoot censusID : preserves (CensusRoot censusID).
Proof. unfold CensusRoot. repeat preserves_step. Qed.

Lemma preserves_CensusInfo censusID : preserves (CensusInfo censusID).
Proof. unfold CensusInfo. repeat preserves_step. Qed.

Lemma preserves_AddPublicKeys censusID pubKs :
  preserves (AddPublicKeys censusID pubKs).
Proof. unfold AddPublicKeys. repeat preserves_step. Qed.

Lemma preserves_SetStatus censusID status :
  preserves (SetStatus censusID status).
Proof. unfold SetStatus. repeat preserves_step. Qed.

Lemma preserves_AddPublicKeysAndStoreError censusID pubKs :
  preserves (AddPublicKeysAndStoreError censusID pubKs).
Proof.
  unfold AddPublicKeysAndStoreError.
  repeat (apply preserves_AddPublicKeys || apply preserves_SetStatus
          || preserves_step).
Qed.

Lemma preserves_exec c : preserves (exec c).
Proof.
  destruct c; simpl;
    repeat (apply preserves_NewCensus
            || apply preserves_CloseCensus || apply preserves_CensusRoot
            || apply preserves_CensusInfo || apply preserves_AddPublicKeys
            || apply preserves_AddPublicKeysAndStoreError
            || apply preserves_SetStatus || preserves_step).
Qed.

Lemma preserves_run cs : preserves (run cs).
Proof.
  induction cs as [|c cs IH]; simpl; [apply preserves_ret|].
  apply preserves_bind; [apply preserves_exec|]. by intros _.
Qed.

Lemma registry_ok_fresh (database : Database.Store) path d :
  registry_ok (fresh database path d).
Proof.
  unfold registry_ok. simpl. repeat split; try done.
  - intros censusID handle H. by apply elem_of_nil in H.
  - intros i j handle H. by apply elem_of_nil in H.
Qed.

Lemma New_fresh (database : Database.Store) path d :
  exists database' d',
    final (New database path d) = fresh database' path d'.
Proof.
  rewrite New_unfold. cbv zeta.
  repeat match goal with
         | |- context [match ?x with _ => _ end] => destruct x
         end; simpl; by eexists _, _.
Qed.

Lemma registry_ok_reachable (database : Database.Store) path d cs :
  registry_ok (final (run cs (final (New database path d)))).
Proof.
  destruct (New_fresh database path d) as (database' & d' & ->).
  apply preserves_run, registry_ok_fresh.
Qed.

(** C2.  In a process that starts with [New] and makes the calls [cs1] and
    then the calls [cs2], an identifier that the registry holds after [cs1]
    is held after [cs2] with the same handle; [cs2] opened no database and
    built no census for it; its handle is the one census ever built for it,
    it is the address of an object, and no other identifier has it. *)
Theorem registry_one_handle (database : Database.Store) path d
    (cs1 cs2 : list call) censusID handle :
  let s1 := final (run cs1 (final (New database path d))) in
  let s2 := final (run cs2 s1) in
  censuses s1 !! censusID = Some handle ->
  censuses s2 !! censusID = Some handle
  /\ opens_of censusID (trace s2) = opens_of censusID (trace s1)
  /\ handles_of censusID (trace s2) = [handle]
  /\ is_Some (heap s2 !! handle)
  /\ forall j, censuses s2 !! j = Some handle -> j = censusID.
Proof.
  intros s1 s2 Hc.
  destruct (preserves_run cs2 s1) as [(_ & _ & Hext) Hok].
  destruct (Hext _ _ Hc) as (Hc2 & Hopens & Hhandles).
  specialize (Hok (registry_ok_reachable database path d cs1)).
  fold s2 in Hc2, Hopens, Hhandles, Hok.
  destruct Hok as (Hbound & _ & Hinj & Hone).
  assert (Hh : handles_of censusID (trace s2) = [handle]).
  { by rewrite Hone, Hc2. }
  repeat split; try done.
  - apply lookup_lt_is_Some. by eapply Hbound.
  - intros j Hj. apply (Hinj j censusID handle).
    + rewrite Hone, Hj. simpl. apply list_elem_of_singleton. done.
    + rewrite Hh. by apply list_elem_of_singleton.
Qed.

(** *** Calls on a census *)

Lemma loadCensusIfNotYet_returns censusID (s : State) :
  exists s1 err, loadCensusIfNotYet censusID s = Returns s1 err.
Proof.
  rewrite loadCensusIfNotYet_unfold.
  destruct (censuses s !! censusID); [by eexists _, _|]. simpl.
  destruct (pebbledb_New _ (disk s)) as [[database|err] d1];
    [|by eexists _, _].
  destruct (census_New database d1) as [[c|err] d2]; by eexists _, _.
Qed.

Lemma loadCensusIfNotYet_db censusID (s : State) :
  db (final (loadCensusIfNotYet censusID s)) = db s.
Proof.
  rewrite loadCensusIfNotYet_unfold.
  destruct (censuses s !! censusID); [done|]. simpl.
  destruct (pebbledb_New _ (disk s)) as [[database|err] d1]; [|done].
  by destruct (census_New database d1) as [[c|err] d2].
Qed.

(** After a load that succeeded the identifier has a handle, and the handle
    an object. *)
Lemma loadCensusIfNotYet_registered censusID (s s1 : State) :
  registry_ok s ->
  loadCensusIfNotYet censusID s = Returns s1 None ->
  registry_ok s1
  /\ exists handle c,
      censuses s1 !! censusID = Some handle /\ heap s1 !! handle = Some c.
Proof.
  intros Hok Hload.
  destruct (preserves_loadCensusIfNotYet censusID s) as [_ Hok1].
  rewrite Hload in Hok1. specialize (Hok1 Hok). simpl in Hok1.
  split; [done|].
  assert (Hc : is_Some (censuses s1 !! censusID)).
  { rewrite loadCensusIfNotYet_unfold in Hload.
    destruct (censuses s !! censusID) eqn:Hc.
    - injection Hload as <-. by rewrite Hc.
    - simpl in Hload.
      destruct (pebbledb_New _ (disk s)) as [[database|err] d1]; [|done].
      destruct (census_New database d1) as [[c|err] d2]; [|done].
      injection Hload as <-. simpl. rewrite lookup_insert_eq. by eexists. }
  destruct Hc as [handle Hc]. exists handle.
  destruct Hok1 as (Hbound & _).
  destruct (lookup_lt_is_Some_2 (heap s1) handle (Hbound _ _ Hc)) as [c Hh].
  by exists c.
Qed.

Lemma call_census_returns {A} censusID
    (method : Census -> Disk -> A * Census * Disk) (s : State) handle c :
  censuses s !! censusID = Some handle ->
  heap s !! handle = Some c ->
  call_census censusID method s
  = Returns (set_heap (fun h => <[handle := (method c (disk s)).1.2]> h)
               (set_disk (method c (disk s)).2 s))
            (method c (disk s)).1.1.
Proof.
  intros Hc Hh. unfold call_census. rewrite Hc, Hh.
  by destruct (method c (disk s)) as [[a c'] d].
Qed.

(** C5.  When the census of [censusID] loads, [AddPublicKeys] hands the
    batch to the census object of the registry.  If the census reports
    rejected keys, and no error of its own, the call returns the error that
    names the number of rejected keys and the index and the message of the
    first one; if it reports no rejected key and no error, the call returns
    [nil]. *)
Theorem AddPublicKeys_reports (s s1 : State) censusID pubKs :
  registry_ok s ->
  loadCensusIfNotYet censusID s = Returns s1 None ->
  exists handle c,
    censuses s1 !! censusID = Some handle
    /\ heap s1 !! handle = Some c
    /\ forall invalids c' d',
        census_AddPublicKeys pubKs c (disk s1) = (invalids, None, c', d') ->
        let s2 := set_heap (fun h => <[handle := c']> h) (set_disk d' s1) in
        match invalids with
        | first :: _ =>
            AddPublicKeys censusID pubKs s
            = Returns s2
                (Some ("CensusBuilder.AddPublicKeys error: "
                       +:+ pretty (Z.of_nat (length invalids))
                       +:+ " invalid keys, invalid msg for key "
                       +:+ pretty (Index first) +:+ ": " +:+ Error first))
        | [] =>
            AddPublicKeys censusID pubKs s
            = Returns
                (emit (EvLog "debug" "[CensusID=%d] %d PublicKeys added"
                         [ArgInt censusID; ArgInt (Z.of_nat (length pubKs))])
                   s2)
                None
        end.
Proof.
  intros Hok Hload.
  destruct (loadCensusIfNotYet_registered _ _ _ Hok Hload)
    as (_ & handle & c & Hc & Hh).
  exists handle, c. split; [done|]. split; [done|].
  intros invalids c' d' Hm s2.
  assert (Hcall : AddPublicKeys censusID pubKs s
                  = match invalids with
                    | first :: _ =>
                        Returns s2
                          (Some (invalid_keys_error (length invalids) first))
                    | [] =>
                        Returns
                          (emit (EvLog "debug"
                                   "[CensusID=%d] %d PublicKeys added"
                                   [ArgInt censusID;
                                    ArgInt (Z.of_nat (length pubKs))]) s2)
                          None
                    end).
  { unfold AddPublicKeys. unfold bind at 1. rewrite Hload.
    unfold bind at 1. rewrite (call_census_returns _ _ _ _ _ Hc Hh), Hm.
    simpl. by destruct invalids. }
  rewrite Hcall. by destruct invalids.
Qed.

Lemma AddPublicKeys_safe (s : State) censusID pubKs :
  registry_ok s ->
  exists s1 err,
    AddPublicKeys censusID pubKs s = Returns s1 err /\ registry_ok s1.
Proof.
  intros Hok.
  destruct (preserves_AddPublicKeys censusID pubKs s) as [_ Hok'].
  specialize (Hok' Hok).
  assert (exists s1 err, AddPublicKeys censusID pubKs s = Returns s1 err)
    as (s1 & err & H).
  { unfold AddPublicKeys. unfold bind at 1.
    destruct (loadCensusIfNotYet_returns censusID s) as (sl & [e|] & Hl);
      rewrite Hl; [by eexists _, _|].
    destruct (loadCensusIfNotYet_registered _ _ _ Hok Hl)
      as (_ & handle & c & Hc & Hh).
    unfold bind at 1. rewrite (call_census_returns _ _ _ _ _ Hc Hh).
    destruct (census_AddPublicKeys pubKs c (disk sl))
      as [[[invalids [e|]] c'] d']; simpl; [by eexists _, _|].
    destruct invalids; by eexists _, _. }
  exists s1, err. rewrite H in Hok'. done.
Qed.



Lemma AddPublicKeysAndStoreError_unfold (s : State) censusID pubKs :
  AddPublicKeysAndStoreError censusID pubKs s
  = match AddPublicKeys censusID pubKs s with
    | Returns s1 None => Returns s1 tt
    | Returns s1 (Some e) =>
        match
          SetStatus censusID e
            (emit (EvLog "debug" "[CensusID=%d] error: %s" [ArgStr e]) s1)
        with
        | Returns s2 None => Returns s2 tt
        | Returns s2 (Some e2) =>
            Returns
              (emit
                 (EvLog "error"
                    "Error while trying to store CensusID:%d status: %s. Error: %s"
                    [ArgInt censusID; ArgStr e; ArgStr e2]) s2)
              tt
        | Panics s2 msg => Panics s2 msg
        end
    | Panics s1 msg => Panics s1 msg
    end.
Proof.
  unfold AddPublicKeysAndStoreError, bind, log, modify, ret.
  destruct (AddPublicKeys censusID pubKs s) as [s1 [e|]|]; try done.
  by destruct (SetStatus censusID e _) as [s2 [e2|]|].
Qed.


(** *** The directory of a census *)

Lemma decimal_char_plain c :
  Strconv.is_decimal_char c = true -> Filepath.plain_char c = true.
Proof.
  unfold Strconv.is_decimal_char. intros H%bool_decide_eq_true.
  repeat (apply elem_of_cons in H as [->|H]; [done|]).
  by apply elem_of_nil in H.
Qed.

Lemma Itoa_plain_name i : Filepath.plain (Strconv.Itoa i).
Proof.
  destruct (StrconvFacts.Itoa_plain i) as [Hne Hch]. split; [done|].
  revert Hch. generalize (Strconv.Itoa i). intros name.
  induction name as [|c name IH]; simpl; [done|].
  intros [Hc Hn]%andb_true_iff. by rewrite decimal_char_plain, IH.
Qed.

(** The directory is a function of the root and the identifier, and two
    identifiers have two directories. *)
Lemma census_path_inj root i j :
  Uint64.in_range i -> Uint64.in_range j ->
  census_path root i = census_path root j -> i = j.
Proof.
  intros Hi Hj H. unfold census_path in H.
  apply FilepathFacts.Join_plain_inj in H; [|apply Itoa_plain_name..].
  apply StrconvFacts.Itoa_inj in H. by apply UintFacts.to_int_inj.
Qed.

(** Below [2^63] the directory is named by the decimal identifier. *)
Lemma census_path_decimal root censusID :
  0 <= censusID < 2 ^ 63 ->
  census_path root censusID = Filepath.Join [root; pretty censusID].
Proof.
  intros H. unfold census_path, Uint64.to_int, Strconv.Itoa.
  destruct (Z.ltb_spec censusID (2 ^ 63)); [done|lia].
Qed.

(** The database that a load opens. *)
Lemma loadCensusIfNotYet_opens censusID (s : State) :
  censuses s !! censusID = None ->
  opens_of censusID (trace (final (loadCensusIfNotYet censusID s)))
  = opens_of censusID (trace s) ++ [census_path (subDBsPath s) censusID].
Proof.
  intros Hc. rewrite loadCensusIfNotYet_unfold, Hc. simpl.
  destruct (pebbledb_New _ (disk s)) as [[database|err] d1]; simpl.
  - destruct (census_New database d1) as [[c|err] d2]; simpl;
      rewrite ?opens_of_snoc, decide_True by done; by rewrite ?app_nil_r.
  - by rewrite opens_of_snoc, decide_True.
Qed.

(** C10.  [CensusInfo] returns a fixed text that ends with the decimal
    identifier, with a [nil] error, and leaves the state as it is; the text
    says nothing of the census: neither its state, nor its root, nor its
    status. *)
Theorem CensusInfo_placeholder (s : State) censusID :
  CensusInfo censusID s
  = Returns s
      ("WIP, this will return info about CensusID: " +:+ pretty censusID,
       None).
Proof. reflexivity. Qed.

End WithCollaborators.

(** *** The reference collaborators *)

#[local] Existing Instance Reference.collaborators.

Lemma reference_storage_available :
  @storage_available Reference.collaborators.
Proof.
  split.
  - intros path d. eexists _, _. reflexivity.
  - intros database d. eexists _, _. reflexivity.
Defined.

Lemma reference_database_reliable :
  @database_reliable Reference.collaborators.
Proof. intros o d. reflexivity. Defined.

Lemma NewCensus_sequential_witness :
  exists s0 s5 : @State Reference.collaborators,
    New ∅ "/var/censuses" ∅ = Returns s0 None
    /\ times 5 NewCensus s0
       = Returns s5 [(0, None); (1, None); (2, None); (3, None); (4, None)]
    /\ counter (db s5) = Some 5
    /\ exists s0' s',
         restart s5 = Returns s0' None
         /\ NewCensus s0' = Returns s' (5, None)
         /\ counter (db s') = Some 6.
Proof.
  apply (@NewCensus_sequential Reference.collaborators ∅ "/var/censuses" ∅ 5).
  - exact reference_storage_available.
  - exact reference_database_reliable.
  - reflexivity.
  - lia.
Defined.

(** C7.  A control database that holds the counter [5], after the
    identifiers [0] to [4] were issued, and an engine that fails the read of
    the counter once, with an input/output error: [New] returns a [nil]
    error and has written the counter [0] over the [5], and the next
    [NewCensus] issues the identifier [0] a second time.  On the same
    database, when the read does not fail, [New] writes nothing. *)
Theorem New_resets_counter :
  let database : Database.Store :=
    {[ dbKeyNextCensusID := LittleEndian.PutUint64 5 ]} in
  let d : @Disk Reference.scheduled := [Some "input/output error"] in
  let s := final (@New Reference.scheduled database "/var/censuses" d) in
  counter database = Some 5
  /\ @New Reference.scheduled database "/var/censuses" d = Returns s None
  /\ counter (db s) = Some 0
  /\ db s <> database
  /\ result (NewCensus s) = Some (0, None)
  /\ db (final (@New Reference.scheduled database "/var/censuses" []))
     = database.
Proof.
  intros database d s.
  assert (Hnew : @New Reference.scheduled database "/var/censuses" d
                 = Returns
                     (@fresh Reference.scheduled
                        (<[dbKeyNextCensusID := LittleEndian.PutUint64 0]>
                           database)
                        "/var/censuses" [])
                     None).
  { by apply (@New_read_error Reference.scheduled database "/var/censuses" d
                "input/output error" [] [] []). }
  assert (Hs : s = @fresh Reference.scheduled
                     (<[dbKeyNextCensusID := LittleEndian.PutUint64 0]>
                        database)
                     "/var/censuses" []).
  { unfold s. by rewrite Hnew. }
  assert (H0 : counter (db s) = Some 0).
  { rewrite Hs. simpl. apply counter_insert.
    unfold Uint64.in_range, Uint64.modulus. lia. }
  assert (H5 : counter database = Some 5) by (vm_compute; reflexivity).
  split; [exact H5|]. split; [by rewrite Hnew, Hs|]. split; [exact H0|].
  split; [intros Heq; rewrite Heq, H5 in H0; discriminate H0|].
  split; [rewrite Hs; vm_compute; reflexivity|].
  rewrite New_unfold. cbv zeta. simpl db_fault. cbv iota beta.
  unfold counter in H5.
  destruct (database !! dbKeyNextCensusID) as [b|]; [|done].
  simpl in H5. by rewrite H5.
Qed.

Lemma registry_one_handle_witness :
  let k := mkPublicKey 1 2 in
  let cs1 := [CallNewCensus] in
  let cs2 := [CallAddPublicKeys 0 [k]; CallSetStatus 0 "ready";
              CallCloseCensus 0; CallCensusRoot 0; CallNewCensus;
              CallAddPublicKeysAndStoreError 0 [k]] in
  let s1 : State := final (run cs1 (final (New ∅ "/var/censuses" ∅))) in
  let s2 := final (run cs2 s1) in
  censuses s1 !! 0 = Some 0%nat
  /\ censuses s2 !! 0 = Some 0%nat
  /\ opens_of 0 (trace s2) = opens_of 0 (trace s1)
  /\ handles_of 0 (trace s2) = [0%nat]
  /\ is_Some (heap s2 !! 0%nat)
  /\ forall j, censuses s2 !! j = Some 0%nat -> j = 0.
Proof.
  intros k cs1 cs2 s1 s2.
  assert (H1 : censuses s1 !! 0 = Some 0%nat) by reflexivity.
  split; [exact H1|].
  exact (registry_one_handle ∅ "/var/censuses" ∅ cs1 cs2 0 0%nat H1).
Defined.

(** A batch of five keys whose key at position 2 repeats the key at
    position 0. *)
Lemma AddPublicKeys_reports_witness :
  let s : State := final (run [CallNewCensus] (final (New ∅ "/var/censuses" ∅))) in
  let key i := mkPublicKey i (i + 1) in
  let batch := [key 10; key 11; key 10; key 13; key 14] in
  exists s2,
    AddPublicKeys 0 batch s
    = Returns s2
        (Some "CensusBuilder.AddPublicKeys error: 1 invalid keys, invalid msg for key 2: key already exists").
Proof.
  intros s key batch.
  destruct (AddPublicKeys_reports s s 0 batch
              (registry_ok_reachable ∅ "/var/censuses" ∅ [CallNewCensus])
              eq_refl)
    as (handle & c & Hc & Hh & Hrep).
  assert (handle = 0%nat) as -> by (vm_compute in Hc; congruence).
  assert (c = "/var/censuses/0") as -> by (vm_compute in Hh; congruence).
  specialize (Hrep [mkInvalid 2 "key already exists"] _ _ eq_refl).
  eexists. exact Hrep.
Defined.

(** C5, as stated, fails: a census that reports a rejected key, the key at
    position 2 of a batch of five, together with an error of its own.
    [AddPublicKeys] returns the error of the census; neither the number of
    rejected keys nor the first of them is reported. *)
Lemma AddPublicKeys_census_error_first :
  let s : @State Reference.aborting :=
    @fresh Reference.aborting ∅ "/var/censuses" tt in
  let key i := mkPublicKey i (i + 1) in
  let batch := [key 10; key 11; key 10; key 13; key 14] in
  @census_AddPublicKeys Reference.aborting batch tt tt
  = ([mkInvalid 2 "key already exists"], Some "pebble: batch commit failed",
     tt, tt)
  /\ result (AddPublicKeys 0 batch s)
     = Some (Some "pebble: batch commit failed")
  /\ result (AddPublicKeys 0 batch s)
     <> Some (Some "CensusBuilder.AddPublicKeys error: 1 invalid keys, invalid msg for key 2: key already exists").
Proof. vm_compute. repeat split; done. Qed.


(** C8.  For the identifier [2^63] the database is opened in a directory
    named by a negative number, not by the decimal identifier. *)
Theorem census_path_high_identifier :
  let s : State := fresh ∅ "/var/censuses" ∅ in
  census_path "/var/censuses" (2 ^ 63) = "/var/censuses/-9223372036854775808"
  /\ Filepath.Join ["/var/censuses"; pretty (2 ^ 63)]
     = "/var/censuses/9223372036854775808"
  /\ census_path "/var/censuses" (2 ^ 63)
     <> Filepath.Join ["/var/censuses"; pretty (2 ^ 63)]
  /\ opens_of (2 ^ 63) (trace (final (loadCensusIfNotYet (2 ^ 63) s)))
     = ["/var/censuses/-9223372036854775808"].
Proof. vm_compute. done. Qed.

(** C10.  A census that was given members, a status and was closed: its
    information is the text of a census that does not exist. *)
Lemma CensusInfo_ignores_census :
  let k := mkPublicKey 1 2 in
  let s : State :=
    final (run [CallNewCensus; CallAddPublicKeys 0 [k];
                CallSetStatus 0 "ready"; CallCloseCensus 0]
             (final (New ∅ "/var/censuses" ∅))) in
  let empty : State := fresh ∅ "/var/censuses" ∅ in
  CensusInfo 0 s
  = Returns s ("WIP, this will return info about CensusID: 0", None)
  /\ CensusInfo 0 empty
     = Returns empty ("WIP, this will return info about CensusID: 0", None).
Proof. split; reflexivity. Qed.

(** C9, as stated, fails: with three bytes under the counter key the call
    does not return, neither an identifier nor an error; it panics. *)
Lemma getNextCensusID_short_value_panics :
  let d : Database.Store :=
    {[ dbKeyNextCensusID := [Byte.x01; Byte.x02; Byte.x03] ]} in
  let s : @State Reference.collaborators := fresh d "/var/censuses" ∅ in
  getNextCensusID (Database.ReadTx d) s
  = Panics s "runtime error: index out of range [7] with length 3"
  /\ ~ (exists s' r, getNextCensusID (Database.ReadTx d) s = Returns s' r).
Proof.
  split; [reflexivity|]. intros (s' & r & H). discriminate H.
Qed.

End CensusBuilderFacts.

(** ** The ledger of vote packages *)

Module SQLiteFacts.
Import SQLite.

Lemma scan_row_of now root v : scan (row_of now root v) = v.
Proof. by destruct v as [sig [i pk mp] vt]. Qed.

Lemma insert_row_Permutation x rows : insert_row x rows ≡ₚ x :: rows.
Proof.
  induction rows as [|y rows IH]; simpl; [done|].
  destruct (indx x <? indx y); [done|].
  rewrite IH. apply Permutation_swap.
Qed.

Lemma insert_desc_Permutation x rows : insert_desc x rows ≡ₚ x :: rows.
Proof.
  induction rows as [|y rows IH]; simpl; [done|].
  destruct (insertedDatetime x <? insertedDatetime y); [|done].
  rewrite IH. apply Permutation_swap.
Qed.

Lemma order_by_datetime_desc_Permutation rows :
  order_by_datetime_desc rows ≡ₚ rows.
Proof.
  induction rows as [|x rows IH]; simpl; [done|].
  by rewrite insert_desc_Permutation, IH.
Qed.

Lemma insert_desc_sorted x rows :
  StronglySorted newer_first rows ->
  StronglySorted newer_first (insert_desc x rows).
Proof.
  induction 1 as [|y rows Hs IH Hy]; simpl.
  - repeat constructor.
  - destruct (Z.ltb_spec (insertedDatetime x) (insertedDatetime y)).
    + constructor; [done|].
      rewrite insert_desc_Permutation. constructor; [|done].
      unfold newer_first. lia.
    + constructor; [by constructor|].
      constructor; [unfold newer_first; lia|].
      eapply Forall_impl; [exact Hy|]. unfold newer_first. intros z Hz. lia.
Qed.

Lemma order_by_datetime_desc_sorted rows :
  StronglySorted newer_first (order_by_datetime_desc rows).
Proof.
  induction rows as [|x rows IH]; simpl; [constructor|].
  by apply insert_desc_sorted.
Qed.

Lemma unique_violation_accepts now root v rows :
  accepts rows v -> unique_violation (row_of now root v) rows = None.
Proof.
  intros Hacc. unfold unique_violation, accepts in *. simpl.
  rewrite Forall_forall in Hacc.
  repeat (case_bool_decide;
          [match goal with
           | Hex : Exists _ rows |- _ =>
               apply Exists_exists in Hex as (y & Hy & Heq);
               destruct (Hacc y Hy) as (? & ? & ?); done
           end|]).
  done.
Qed.

Lemma unique_violation_clash x y rows :
  y ∈ rows ->
  indx y = indx x \/ publicKey y = publicKey x
  \/ merkleproof y = merkleproof x ->
  exists column, unique_violation x rows = Some column.
Proof.
  intros Hy Hclash. unfold unique_violation.
  repeat (case_bool_decide; [by eexists|]).
  exfalso.
  destruct Hclash as [Hc|[Hc|Hc]];
    match goal with
    | Hn : ~ Exists (fun z => _ z = _ x) rows |- _ =>
        apply Hn, Exists_exists; by exists y
    end.
Qed.

(** C3.  On a table no row of which has the index, the public key or the
    Merkle proof of the first vote package, storing the first succeeds;
    storing a second one that repeats the index, the public key or the
    Merkle proof of the first then fails on a unique constraint and leaves
    the database as it was; the first is among the packages read for its
    census root, every read gives what it gave before the failed call, and on
    a table that was empty the read gives the first package alone. *)
Theorem StoreVotePackage_unique rows now1 root1 v1 now2 root2 v2 :
  accepts rows v1 ->
  Index (censusProof v2) = Index (censusProof v1)
  \/ PublicKey (censusProof v2) = PublicKey (censusProof v1)
  \/ MerkleProof (censusProof v2) = MerkleProof (censusProof v1) ->
  let r := mkSQLite (Some rows) in
  let r1 := (StoreVotePackage now1 root1 v1 r).1 in
  (StoreVotePackage now1 root1 v1 r).2 = None
  /\ (exists column,
        StoreVotePackage now2 root2 v2 r1
        = (r1, Some (ErrConstraintUnique column)))
  /\ v1 ∈ (ReadVotePackagesByCensusRoot root1 r1).1
  /\ (forall root,
        ReadVotePackagesByCensusRoot root
          (StoreVotePackage now2 root2 v2 r1).1
        = ReadVotePackagesByCensusRoot root r1)
  /\ (rows = [] -> ReadVotePackagesByCensusRoot root1 r1 = ([v1], None)).
Proof.
  intros Hacc Hrep. cbv zeta.
  set (x1 := row_of now1 root1 v1).
  assert (Hr1 : StoreVotePackage now1 root1 v1 (mkSQLite (Some rows))
                = (mkSQLite (Some (insert_row x1 rows)), None)).
  { unfold StoreVotePackage. simpl.
    by rewrite (unique_violation_accepts _ _ _ _ Hacc). }
  rewrite Hr1. simpl.
  assert (Hin : x1 ∈ insert_row x1 rows).
  { rewrite insert_row_Permutation. apply elem_of_cons. by left. }
  assert (H2 : exists column,
             StoreVotePackage now2 root2 v2
               (mkSQLite (Some (insert_row x1 rows)))
             = (mkSQLite (Some (insert_row x1 rows)),
                Some (ErrConstraintUnique column))).
  { unfold StoreVotePackage. simpl.
    destruct (unique_violation_clash (row_of now2 root2 v2) _ _ Hin)
      as [column ->]; [|by exists column].
    subst x1. simpl. destruct Hrep as [->|[->| ->]]; auto. }
  split; [done|]. split; [done|]. split; [|split].
  - apply list_elem_of_fmap. exists x1.
    split; [subst x1; by rewrite scan_row_of|].
    rewrite order_by_datetime_desc_Permutation.
    unfold rows_of_root. apply list_elem_of_filter. done.
  - intros root. destruct H2 as [column ->]. done.
  - intros ->. simpl. unfold ReadVotePackagesByCensusRoot, rows_of_root.
    simpl votepackages. cbv iota beta.
    rewrite filter_cons_True by done. rewrite filter_nil. simpl.
    subst x1. by rewrite scan_row_of.
Qed.

Lemma StoreVotePackage_unique_witness :
  let v1 := mkVotePackage [Byte.x0a] (mkCensusProof 1 [Byte.x01] [Byte.x11])
                          [Byte.xff] in
  let v2 := mkVotePackage [Byte.x0b] (mkCensusProof 2 [Byte.x01] [Byte.x12])
                          [Byte.xfe] in
  let r := (Migrate (mkSQLite None)).1 in
  let r1 := (StoreVotePackage 100 [Byte.xc1] v1 r).1 in
  (StoreVotePackage 100 [Byte.xc1] v1 r).2 = None
  /\ (exists column,
        StoreVotePackage 160 [Byte.xc2] v2 r1
        = (r1, Some (ErrConstraintUnique column)))
  /\ v1 ∈ (ReadVotePackagesByCensusRoot [Byte.xc1] r1).1
  /\ (forall root,
        ReadVotePackagesByCensusRoot root
          (StoreVotePackage 160 [Byte.xc2] v2 r1).1
        = ReadVotePackagesByCensusRoot root r1)
  /\ ([] = @nil row ->
      ReadVotePackagesByCensusRoot [Byte.xc1] r1 = ([v1], None)).
Proof.
  intros v1 v2 r r1.
  apply (StoreVotePackage_unique [] 100 [Byte.xc1] v1 160 [Byte.xc2] v2).
  - constructor.
  - right. left. reflexivity.
Defined.

Lemma StoreVotePackage_stored now root v rows r' :
  StoreVotePackage now root v (mkSQLite (Some rows)) = (r', None) ->
  r' = mkSQLite (Some (insert_row (row_of now root v) rows)).
Proof.
  unfold StoreVotePackage. simpl.
  destruct (unique_violation _ rows); [done|]. by intros [= <-].
Qed.

Lemma rows_of_root_insert_row root x rows :
  censusRoot x = root ->
  rows_of_root root (insert_row x rows) ≡ₚ x :: rows_of_root root rows.
Proof.
  intros Hx. unfold rows_of_root.
  rewrite insert_row_Permutation. by rewrite filter_cons_True.
Qed.

(** Three rows with increasing datetimes come out the last one first. *)
Lemma order_by_datetime_desc_three x1 x2 x3 rows :
  rows ≡ₚ [x3; x2; x1] ->
  insertedDatetime x1 < insertedDatetime x2 < insertedDatetime x3 ->
  order_by_datetime_desc rows = [x3; x2; x1].
Proof.
  intros Hperm Ht.
  apply (StronglySorted_unique_strong newer_first).
  - intros a b Ha Hb Hab Hba. unfold newer_first in *.
    rewrite order_by_datetime_desc_Permutation, Hperm in Ha.
    repeat (apply elem_of_cons in Ha as [->|Ha]);
      repeat (apply elem_of_cons in Hb as [->|Hb]);
      try done; try lia; by apply elem_of_nil in Ha || by apply elem_of_nil in Hb.
  - apply order_by_datetime_desc_sorted.
  - unfold newer_first. repeat constructor; lia.
  - by rewrite order_by_datetime_desc_Permutation.
Qed.

(** C4, amended.  On a table that exists, [ReadVotePackagesByCensusRoot]
    returns, with a [nil] error, the vote packages of the rows stored with
    the census root, all of them and no others, by descending datetime of
    insertion, the datetime being the clock read to the second.  For three
    vote packages stored in this order under a census root that had no row,
    at three increasing datetimes, it returns the third, the second and the
    first. *)
Theorem ReadVotePackagesByCensusRoot_ordered root rows :
  (exists sorted,
      ReadVotePackagesByCensusRoot root (mkSQLite (Some rows))
      = (map scan sorted, None)
      /\ sorted ≡ₚ rows_of_root root rows
      /\ StronglySorted newer_first sorted)
  /\ (forall v1 v2 v3 t1 t2 t3 r1 r2 r3,
        rows_of_root root rows = [] ->
        StoreVotePackage t1 root v1 (mkSQLite (Some rows)) = (r1, None) ->
        StoreVotePackage t2 root v2 r1 = (r2, None) ->
        StoreVotePackage t3 root v3 r2 = (r3, None) ->
        t1 < t2 < t3 ->
        ReadVotePackagesByCensusRoot root r3 = ([v3; v2; v1], None)).
Proof.
  split.
  - exists (order_by_datetime_desc (rows_of_root root rows)).
    split; [done|]. split.
    + apply order_by_datetime_desc_Permutation.
    + apply order_by_datetime_desc_sorted.
  - intros v1 v2 v3 t1 t2 t3 r1 r2 r3 Hnone H1 H2 H3 Ht.
    apply StoreVotePackage_stored in H1 as ->.
    apply StoreVotePackage_stored in H2 as ->.
    apply StoreVotePackage_stored in H3 as ->.
    unfold ReadVotePackagesByCensusRoot. simpl. f_equal.
    rewrite (order_by_datetime_desc_three
               (row_of t1 root v1) (row_of t2 root v2) (row_of t3 root v3)).
    + simpl. by rewrite !scan_row_of.
    + rewrite !rows_of_root_insert_row by done. by rewrite Hnone.
    + simpl. lia.
Qed.

Lemma ReadVotePackagesByCensusRoot_ordered_witness :
  let v i b := mkVotePackage [Byte.x0a] (mkCensusProof i [b] [b]) [Byte.xff] in
  let root := [Byte.xc1] in
  let r0 := (Migrate (mkSQLite None)).1 in
  let r1 := (StoreVotePackage 100 root (v 7 Byte.x07) r0).1 in
  let r2 := (StoreVotePackage 101 root (v 3 Byte.x03) r1).1 in
  let r3 := (StoreVotePackage 102 root (v 5 Byte.x05) r2).1 in
  ReadVotePackagesByCensusRoot root r3
  = ([v 5 Byte.x05; v 3 Byte.x03; v 7 Byte.x07], None).
Proof.
  intros v root r0 r1 r2 r3.
  apply (proj2 (ReadVotePackagesByCensusRoot_ordered root [])
           (v 7 Byte.x07) (v 3 Byte.x03) (v 5 Byte.x05) 100 101 102 r1 r2 r3);
    try reflexivity.
  lia.
Defined.

(** C4, as stated, fails: three vote packages stored in the same second, in
    the order [v 1], [v 2], [v 3], are not read back last one first.  The
    table does not tell in which order they were stored: storing them in the
    opposite order gives the same table. *)
Lemma ReadVotePackagesByCensusRoot_same_second :
  let v i b := mkVotePackage [Byte.x0a] (mkCensusProof i [b] [b]) [Byte.xff] in
  let root := [Byte.xc1] in
  let r0 := (Migrate (mkSQLite None)).1 in
  let store now w r := (StoreVotePackage now root w r).1 in
  let r3 := store 100 (v 3 Byte.x03)
              (store 100 (v 2 Byte.x02) (store 100 (v 1 Byte.x01) r0)) in
  let r3' := store 100 (v 1 Byte.x01)
               (store 100 (v 2 Byte.x02) (store 100 (v 3 Byte.x03) r0)) in
  ReadVotePackagesByCensusRoot root r3
  = ([v 1 Byte.x01; v 2 Byte.x02; v 3 Byte.x03], None)
  /\ (ReadVotePackagesByCensusRoot root r3).1
     <> [v 3 Byte.x03; v 2 Byte.x02; v 1 Byte.x01]
  /\ r3' = r3.
Proof. vm_compute. repeat split; done. Qed.

End SQLiteFacts.

(** * Further properties *)

(** ** The census builder *)

Module CensusBuilderMore.
Import CensusBuilder CensusBuilderFacts.

Section WithCollaborators.

Context `{Collab : Collaborators}.

(** What [NewCensus] does, step by step, by what the engine of the control
    database answers to the read of the counter, to the write of the next
    counter and to the commit. *)
Lemma NewCensus_unfold (s : State) :
  NewCensus s
  = let get := db_fault (Database.OpGet dbKeyNextCensusID) (disk s) in
    let s0 := set_disk get.2 s in
    match
      match get.1 with
      | Some e => inr e
      | None => Database.Get (Database.ReadTx (db s)) dbKeyNextCensusID
      end
    with
    | inr e => Returns s0 (0, Some e)
    | inl b =>
        match LittleEndian.Uint64 b with
        | None =>
            Panics s0 ("runtime error: index out of range [7] with length "
                       +:+ pretty (length b))
        | Some v =>
            match loadCensusIfNotYet v s0 with
            | Returns s1 (Some e) => Returns s1 (0, Some e)
            | Returns s1 None =>
                let next := LittleEndian.PutUint64 (Uint64.add v 1) in
                let set :=
                  db_fault (Database.OpSet dbKeyNextCensusID next) (disk s1) in
                match set.1 with
                | Some e => Returns (set_disk set.2 s1) (0, Some e)
                | None =>
                    let com := db_fault Database.OpCommit set.2 in
                    match com.1 with
                    | Some e => Returns (set_disk com.2 s1) (0, Some e)
                    | None =>
                        Returns
                          (emit (EvLog "debug"
                                   "[CensusID=%d] New census created"
                                   [ArgInt v])
                             (set_db
                                (fun _ => <[dbKeyNextCensusID := next]> (db s1))
                                (set_disk com.2 s1)))
                          (v, None)
                    end
                end
            | Panics s1 msg => Panics s1 msg
            end
        end
    end.
Proof.
  unfold NewCensus. unfold bind at 1. unfold gets at 1.
  unfold bind at 1. unfold getNextCensusID. unfold bind at 1.
  rewrite tx_Get_unfold. cbv zeta.
  destruct (db_fault (Database.OpGet _) (disk s)) as [[e0|] d0]; simpl;
    [done|].
  destruct (Database.Get _ dbKeyNextCensusID) as [b|e]; [|done].
  destruct (LittleEndian.Uint64 b) as [v|]; [|done].
  unfold ret at 1. unfold bind at 1.
  destruct (loadCensusIfNotYet v _) as [s1 [e|]|]; try done.
  unfold bind at 1. unfold gets at 1.
  unfold bind at 1. rewrite setNextCensusID_unfold. cbv zeta.
  destruct (db_fault (Database.OpSet _ _) (disk s1)) as [[e1|] d1]; simpl;
    [done|].
  unfold bind at 1. rewrite commit_unfold. simpl.
  destruct (db_fault Database.OpCommit d1) as [[e2|] d2]; simpl; [done|].
  unfold bind, log, modify, ret, set_db. simpl. by rewrite Commit_Set.
Qed.

(** The outcomes of [NewCensus]: the read of the counter fails; the value
    under the counter key is too short; or the counter [v] is read and its
    census is loaded, after which the write of the next counter or the
    commit fails, or the call succeeds. *)
Lemma NewCensus_cases (s : State) :
  (exists d e, NewCensus s = Returns (set_disk d s) (0, Some e))
  \/ (exists d b,
        db s !! dbKeyNextCensusID = Some b
        /\ LittleEndian.Uint64 b = None
        /\ NewCensus s
           = Panics (set_disk d s)
               ("runtime error: index out of range [7] with length "
                +:+ pretty (length b)))
  \/ (exists d v,
        counter (db s) = Some v
        /\ match loadCensusIfNotYet v (set_disk d s) with
           | Returns s1 (Some e) => NewCensus s = Returns s1 (0, Some e)
           | Returns s1 None =>
               exists d',
                 (exists e, NewCensus s = Returns (set_disk d' s1) (0, Some e))
                 \/ NewCensus s
                    = Returns
                        (emit (EvLog "debug"
                                 "[CensusID=%d] New census created" [ArgInt v])
                           (set_db
                              (fun _ =>
                                 <[dbKeyNextCensusID :=
                                     LittleEndian.PutUint64 (Uint64.add v 1)]>
                                   (db s1))
                              (set_disk d' s1)))
                        (v, None)
           | Panics s1 msg => NewCensus s = Panics s1 msg
           end).
Proof.
  rewrite NewCensus_unfold, Get_ReadTx. cbv zeta.
  destruct (db_fault (Database.OpGet _) (disk s)) as [[e0|] d0]; simpl;
    [left; by eexists _, _|].
  destruct (db s !! dbKeyNextCensusID) as [b|] eqn:Hk;
    [|left; by eexists _, _].
  destruct (LittleEndian.Uint64 b) as [v|] eqn:Hb;
    [|right; left; by eexists _, _].
  right. right. exists d0, v. split; [unfold counter; by rewrite Hk|].
  destruct (loadCensusIfNotYet v _) as [s1 [e|]|]; try done.
  destruct (db_fault (Database.OpSet _ _) (disk s1)) as [[e1|] d1]; simpl;
    [eexists; left; by eexists|].
  destruct (db_fault Database.OpCommit d1) as [[e2|] d2]; simpl;
    [eexists; left; by eexists|].
  eexists. by right.
Qed.

(** A load that fails leaves registry, memory and control database as they
    were. *)
Lemma loadCensusIfNotYet_error censusID (s s1 : State) e :
  loadCensusIfNotYet censusID s = Returns s1 (Some e) ->
  censuses s1 = censuses s /\ heap s1 = heap s /\ db s1 = db s
  /\ subDBsPath s1 = subDBsPath s
  /\ trace s1
     = trace s ++ [EvOpen censusID (census_path (subDBsPath s) censusID)].
Proof.
  rewrite loadCensusIfNotYet_unfold.
  destruct (censuses s !! censusID); [done|]. simpl.
  destruct (pebbledb_New _ (disk s)) as [[database|err] d1].
  - destruct (census_New database d1) as [[c|err] d2]; [done|].
    by intros [= <- _].
  - by intros [= <- _].
Qed.

Lemma loadCensusIfNotYet_success censusID (s s1 : State) :
  loadCensusIfNotYet censusID s = Returns s1 None ->
  is_Some (censuses s1 !! censusID) /\ db s1 = db s.
Proof.
  intros H. split.
  - rewrite loadCensusIfNotYet_unfold in H.
    destruct (censuses s !! censusID) eqn:Hc.
    + injection H as <-. by rewrite Hc.
    + simpl in H.
      destruct (pebbledb_New _ (disk s)) as [[database|err] d1]; [|done].
      destruct (census_New database d1) as [[c|err] d2]; [|done].
      injection H as <-. simpl. rewrite lookup_insert_eq. by eexists.
  - pose proof (loadCensusIfNotYet_db censusID s) as Hd.
    by rewrite H in Hd.
Qed.

(** X1.  When [NewCensus] returns an identifier with a [nil] error, the
    identifier is the counter that the control database held, the database
    now holds the counter one higher (on 64 bits) and is the same under
    every other key, and the registry holds the census of the identifier. *)
Theorem NewCensus_success (s s' : State) censusID :
  NewCensus s = Returns s' (censusID, None) ->
  counter (db s) = Some censusID
  /\ counter (db s') = Some (Uint64.add censusID 1)
  /\ is_Some (censuses s' !! censusID)
  /\ forall key, key <> dbKeyNextCensusID -> db s' !! key = db s !! key.
Proof.
  destruct (NewCensus_cases s)
    as [(d & e & ->)|[(d & b & _ & _ & ->)|(d & v & Hv & H)]]; try done.
  destruct (loadCensusIfNotYet v _) as [s1 [e|]|] eqn:Hl;
    [by rewrite H| |by rewrite H].
  destruct H as (d' & [[e ->]| ->]); [done|].
  intros [= <- <-]. simpl.
  destruct (loadCensusIfNotYet_success _ _ _ Hl) as [Hc Hdb].
  simpl in Hdb.
  split; [done|]. split; [|split; [done|]].
  - apply counter_insert, UintFacts.wrap_range.
  - intros key Hk. rewrite lookup_insert_ne by done. by rewrite Hdb.
Qed.

(** X2.  When [NewCensus] returns an error, the identifier it returns is
    [0] and the control database is as it was before the call: no identifier
    was used up.  Either the registry and the census objects are as they
    were too, or the census of the counter was loaded before the write of
    the counter or the commit failed: it stays in the registry, under the
    identifier that the next successful call returns. *)
Theorem NewCensus_failure (s s' : State) censusID e :
  NewCensus s = Returns s' (censusID, Some e) ->
  censusID = 0
  /\ db s' = db s
  /\ (censuses s' = censuses s /\ heap s' = heap s
      \/ exists v,
          counter (db s') = Some v /\ is_Some (censuses s' !! v)).
Proof.
  destruct (NewCensus_cases s)
    as [(d & e0 & ->)|[(d & b & _ & _ & ->)|(d & v & Hv & H)]]; try done.
  - intros [= <- <- _]. split; [done|]. split; [done|]. by left.
  - destruct (loadCensusIfNotYet v _) as [s1 [e1|]|] eqn:Hl;
      [| |by rewrite H].
    + rewrite H. intros [= <- <- _].
      destruct (loadCensusIfNotYet_error _ _ _ _ Hl) as (? & ? & ? & _).
      split; [done|]. split; [done|]. by left.
    + destruct (loadCensusIfNotYet_success _ _ _ Hl) as [Hc Hdb].
      simpl in Hdb.
      destruct H as (d' & [[e1 ->]| ->]); [|done].
      intros [= <- <- _]. split; [done|]. split; [done|].
      right. exists v. simpl. by rewrite Hdb.
Qed.

(** X3.  On a control database that holds a counter, [N] calls of
    [NewCensus] all return, whatever opens or fails in the storage and
    whichever operations of the control database fail; the calls that
    succeed return consecutive identifiers (on 64 bits), starting at the
    counter, and the counter ends that many higher. *)
Theorem NewCensus_consecutive (N : nat) (s : State) v :
  counter (db s) = Some v ->
  exists s' rs,
    times N NewCensus s = Returns s' rs
    /\ length rs = N
    /\ succeeded rs
       = map (fun i => Uint64.wrap (v + Z.of_nat i))
             (seq 0 (length (succeeded rs)))
    /\ counter (db s')
       = Some (Uint64.wrap (v + Z.of_nat (length (succeeded rs)))).
Proof.
  revert s v. induction N as [|N IH]; intros s v Hc.
  - exists s, []. simpl. split; [done|]. split; [done|]. split; [done|].
    rewrite Z.add_0_r, UintFacts.wrap_small; [done|by eapply counter_range].
  - assert (Hrange : Uint64.in_range v) by (by eapply counter_range).
    assert (Hnew : exists s1 r,
               NewCensus s = Returns s1 r
               /\ ((r = (v, None) /\ counter (db s1) = Some (Uint64.add v 1))
                   \/ (exists e, r = (0, Some e)) /\ counter (db s1) = Some v)).
    { destruct (NewCensus_cases s)
        as [(d & e & ->)|[(d & b & Hk & Hb & _)|(d & v' & Hv & H)]].
      - eexists _, _. split; [done|]. right. split; [by eexists|done].
      - unfold counter in Hc. rewrite Hk in Hc. simpl in Hc. congruence.
      - assert (v' = v) as -> by congruence.
        destruct (loadCensusIfNotYet_returns v (set_disk d s))
          as (s1 & [e|] & Hl); rewrite Hl in H.
        + rewrite H. eexists _, _. split; [done|]. right.
          split; [by eexists|].
          destruct (loadCensusIfNotYet_error _ _ _ _ Hl) as (_ & _ & -> & _).
          done.
        + destruct (loadCensusIfNotYet_success _ _ _ Hl) as [_ Hdb].
          simpl in Hdb.
          destruct H as (d' & [[e ->]| ->]); eexists _, _; (split; [done|]).
          * right. split; [by eexists|]. simpl. by rewrite Hdb.
          * left. split; [done|]. simpl.
            apply counter_insert, UintFacts.wrap_range. }
    destruct Hnew as (s1 & r & Hnew & Hcase).
    simpl. unfold bind at 1. rewrite Hnew. unfold bind at 1.
    destruct Hcase as [[-> Hc1]|[[e ->] Hc1]].
    + destruct (IH s1 _ Hc1) as (s2 & rs & Hrest & Hlen & Hok & Hc2).
      rewrite Hrest. exists s2, ((v, None) :: rs). unfold ret.
      assert (Hshift : forall i : Z,
                 Uint64.wrap (Uint64.add v 1 + i) = Uint64.wrap (v + (1 + i))).
      { intros i. unfold Uint64.add, Uint64.wrap.
        rewrite Zplus_mod_idemp_l. f_equal. lia. }
      split; [done|]. split; [simpl; lia|].
      change (succeeded ((v, None) :: rs)) with (v :: succeeded rs).
      split.
      * simpl. f_equal.
        -- by rewrite Z.add_0_r, UintFacts.wrap_small.
        -- rewrite Hok at 1. rewrite <- seq_shift, map_map.
           apply map_ext. intros i. rewrite Hshift. do 2 f_equal. lia.
      * rewrite Hc2, Hshift. do 2 f_equal. simpl length. lia.
    + destruct (IH s1 _ Hc1) as (s2 & rs & Hrest & Hlen & Hok & Hc2).
      rewrite Hrest. exists s2, ((0, Some e) :: rs). unfold ret.
      split; [done|]. split; [simpl; lia|].
      change (succeeded ((0, Some e) :: rs)) with (succeeded rs). done.
Qed.

(** X4.  The counter wraps: with storage that opens and a control database
    whose engine does not fail, the call of [NewCensus] on the counter
    [2^64 - 1] returns that identifier and stores the counter [0], and the
    call after it returns the identifier [0]. *)
Theorem NewCensus_wraps (s : State) :
  storage_available ->
  database_reliable ->
  counter (db s) = Some (2 ^ 64 - 1) ->
  exists s1 s2,
    NewCensus s = Returns s1 (2 ^ 64 - 1, None)
    /\ counter (db s1) = Some 0
    /\ NewCensus s1 = Returns s2 (0, None).
Proof.
  intros Hav Hr Hc.
  destruct (NewCensus_available s _ Hav Hr Hc) as (s1 & H1 & Hc1 & _).
  change (Uint64.add (2 ^ 64 - 1) 1) with 0 in Hc1.
  destruct (NewCensus_available s1 _ Hav Hr Hc1) as (s2 & H2 & _).
  by exists s1, s2.
Qed.

(** X5.  A load that fails caches nothing: registry, census objects and
    control database are as before, and the next load of the identifier
    calls [pebbledb.New] again, on the same directory. *)
Theorem loadCensusIfNotYet_retry censusID (s s1 : State) e :
  loadCensusIfNotYet censusID s = Returns s1 (Some e) ->
  censuses s1 = censuses s /\ heap s1 = heap s /\ db s1 = db s
  /\ opens_of censusID (trace (final (loadCensusIfNotYet censusID s1)))
     = opens_of censusID (trace s)
       ++ [census_path (subDBsPath s) censusID;
           census_path (subDBsPath s) censusID].
Proof.
  intros Hl.
  destruct (loadCensusIfNotYet_error _ _ _ _ Hl) as (Hc & Hh & Hd & Hp & Ht).
  split; [done|]. split; [done|]. split; [done|].
  assert (Hnone : censuses s1 !! censusID = None).
  { rewrite Hc. destruct (censuses s !! censusID) eqn:Hcs; [|done].
    by rewrite (loadCensusIfNotYet_cached _ _ _ Hcs) in Hl. }
  rewrite (loadCensusIfNotYet_opens _ _ Hnone), Ht, Hp, opens_of_snoc.
  rewrite decide_True by done. by rewrite <- app_assoc.
Qed.

Lemma call_census_db {A} censusID
    (method : Census -> Disk -> A * Census * Disk) (s : State) :
  db (final (call_census censusID method s)) = db s.
Proof.
  unfold call_census.
  destruct (censuses s !! censusID) as [handle|]; [|done].
  destruct (heap s !! handle) as [c|]; [|done].
  by destruct (method c (disk s)) as [[a c'] d].
Qed.

(** A method call on a census that was just loaded returns. *)
Lemma call_census_loaded {A} censusID
    (method : Census -> Disk -> A * Census * Disk) (s s1 : State) :
  registry_ok s ->
  loadCensusIfNotYet censusID s = Returns s1 None ->
  exists s2 a, call_census censusID method s1 = Returns s2 a.
Proof.
  intros Hok Hl.
  destruct (loadCensusIfNotYet_registered _ _ _ Hok Hl)
    as (_ & handle & c & Hc & Hh).
  rewrite (call_census_returns _ _ _ _ _ Hc Hh). by eexists _, _.
Qed.

Lemma CloseCensus_returns (s : State) censusID :
  registry_ok s -> exists s' r, CloseCensus censusID s = Returns s' r.
Proof.
  intros Hok. unfold CloseCensus. unfold bind.
  destruct (loadCensusIfNotYet_returns censusID s) as (s1 & [e|] & Hl);
    rewrite Hl; [by eexists _, _|].
  apply (call_census_loaded _ _ _ _ Hok Hl).
Qed.

Lemma CensusRoot_returns (s : State) censusID :
  registry_ok s -> exists s' r, CensusRoot censusID s = Returns s' r.
Proof.
  intros Hok. unfold CensusRoot. unfold bind at 1.
  destruct (loadCensusIfNotYet_returns censusID s) as (s1 & [e|] & Hl);
    rewrite Hl; [by eexists _, _|].
  unfold bind.
  destruct (call_census_loaded censusID census_Root _ _ Hok Hl)
    as (s2 & [root [e|]] & ->); by eexists _, _.
Qed.

Lemma SetStatus_returns (s : State) censusID status :
  registry_ok s -> exists s' r, SetStatus censusID status s = Returns s' r.
Proof.
  intros Hok. unfold SetStatus. unfold bind at 1.
  destruct (loadCensusIfNotYet_returns censusID s) as (s1 & [e|] & Hl);
    rewrite Hl; [by eexists _, _|].
  unfold bind at 1. unfold gets at 1. unfold bind at 1.
  destruct (call_census_loaded censusID
              (census_SetStatus (Database.WriteTx (db s1)) status) _ _ Hok Hl)
    as (s2 & [wTx [e|]] & ->); [by eexists _, _|].
  unfold bind. rewrite commit_unfold. cbv zeta.
  destruct (db_fault Database.OpCommit (disk s2)).1; by eexists _, _.
Qed.

Lemma NewCensus_returns_readable (s : State) :
  counter_readable (db s) -> exists s' r, NewCensus s = Returns s' r.
Proof.
  intros Hr.
  destruct (NewCensus_cases s)
    as [(d & e & ->)|[(d & b & Hk & Hb & _)|(d & v & Hv & H)]].
  - by eexists _, _.
  - destruct (LittleEndianFacts.Uint64_long b (Hr b Hk)) as [v Hv].
    congruence.
  - destruct (loadCensusIfNotYet_returns v (set_disk d s))
      as (s1 & [e|] & Hl); rewrite Hl in H; [by eexists _, _|].
    destruct H as (d' & [[e ->]| ->]); by eexists _, _.
Qed.

(** X6.  From a good registry every call of the interface returns, and the
    registry stays good: the census that a method is called on is never the
    nil pointer.  For [NewCensus] the value under the counter key, when
    there is one, must have its eight bytes. *)
Theorem calls_return (s : State) (c : call) :
  registry_ok s ->
  (c = CallNewCensus -> counter_readable (db s)) ->
  exists s', exec c s = Returns s' tt /\ registry_ok s'.
Proof.
  intros Hok Hc.
  assert (Hret : exists s', exec c s = Returns s' tt).
  { destruct c as [|censusID|censusID|censusID|censusID pubKs
                   |censusID pubKs|censusID status]; simpl; unfold bind.
    - destruct (NewCensus_returns_readable s (Hc eq_refl)) as (s' & r & ->).
      by eexists.
    - destruct (CloseCensus_returns s censusID Hok) as (s' & r & ->).
      by eexists.
    - destruct (CensusRoot_returns s censusID Hok) as (s' & r & ->).
      by eexists.
    - by eexists.
    - destruct (AddPublicKeys_safe s censusID pubKs Hok)
        as (s' & r & -> & _).
      by eexists.
    - rewrite AddPublicKeysAndStoreError_unfold.
      destruct (AddPublicKeys_safe s censusID pubKs Hok)
        as (s1 & [e|] & -> & Hok1); [|by eexists].
      assert (Hok1' : registry_ok
                        (emit (EvLog "debug" "[CensusID=%d] error: %s"
                                 [ArgStr e]) s1)).
      { by apply (preserves_log "debug" "[CensusID=%d] error: %s"
                    [ArgStr e] s1). }
      destruct (SetStatus_returns _ censusID e Hok1') as (s2 & [e2|] & ->);
        by eexists.
    - destruct (SetStatus_returns s censusID status Hok) as (s' & r & ->).
      by eexists. }
  destruct Hret as [s' Hret]. exists s'. split; [done|].
  destruct (preserves_exec c s) as [_ Hok']. rewrite Hret in Hok'. auto.
Qed.

(** X7.  [CloseCensus], [CensusRoot], [CensusInfo] and [AddPublicKeys]
    never write the control database, whether they return or panic: the
    counter is as it was, also when the call loaded a census that no
    [NewCensus] had allocated. *)
Theorem readers_keep_database (s : State) censusID pubKs :
  db (final (CloseCensus censusID s)) = db s
  /\ db (final (CensusRoot censusID s)) = db s
  /\ db (final (CensusInfo censusID s)) = db s
  /\ db (final (AddPublicKeys censusID pubKs s)) = db s.
Proof.
  pose proof (loadCensusIfNotYet_db censusID s) as Hd.
  unfold CloseCensus, CensusRoot, CensusInfo, AddPublicKeys.
  repeat split; try done; unfold bind at 1;
    destruct (loadCensusIfNotYet censusID s) as [s1 [e|]|]; simpl in *;
    try done.
  - by rewrite call_census_db.
  - unfold bind.
    pose proof (call_census_db censusID census_Root s1) as Hc.
    destruct (call_census censusID census_Root s1) as [s2 [root [e|]]|];
      simpl in *; congruence.
  - unfold bind at 1.
    pose proof (call_census_db censusID (census_AddPublicKeys pubKs) s1) as Hc.
    destruct (call_census censusID (census_AddPublicKeys pubKs) s1)
      as [s2 [invalids [e|]]|]; simpl in *; try congruence.
    destruct invalids; simpl; congruence.
Qed.

(** X8.  When [SetStatus] returns an error, of the load, of the census or
    of the commit, the control database is as it was: the transaction is not
    committed. *)
Theorem SetStatus_failure (s s' : State) censusID status e :
  SetStatus censusID status s = Returns s' (Some e) ->
  db s' = db s.
Proof.
  unfold SetStatus. unfold bind at 1.
  pose proof (loadCensusIfNotYet_db censusID s) as Hd.
  destruct (loadCensusIfNotYet censusID s) as [s1 [e1|]|]; simpl in *;
    [by intros [= <- _]| |done].
  unfold bind at 1. unfold gets at 1. unfold bind at 1.
  pose proof (call_census_db censusID
                (census_SetStatus (Database.WriteTx (db s1)) status) s1) as Hc.
  destruct (call_census censusID _ s1) as [s2 [wTx [e2|]]|]; simpl in *;
    [intros [= <- _]; congruence| |done].
  unfold bind. rewrite commit_unfold. cbv zeta.
  destruct (db_fault Database.OpCommit (disk s2)).1; [|done].
  intros [= <- _]. simpl. congruence.
Qed.

(** X9.  From a good registry [CensusRoot] returns.  An error of the load is
    returned as it is, with no root.  When the census loads, the root of the
    census object of the registry is returned with a [nil] error; an error
    of the census is returned with the text [Can not get the CensusRoot, ]
    before its message, and with no root. *)
Theorem CensusRoot_reports (s : State) censusID :
  registry_ok s ->
  exists s1 lerr,
    loadCensusIfNotYet censusID s = Returns s1 lerr
    /\ match lerr with
       | Some e => CensusRoot censusID s = Returns s1 ([], Some e)
       | None =>
           exists handle c,
             censuses s1 !! censusID = Some handle
             /\ heap s1 !! handle = Some c
             /\ forall root err c' d',
                 census_Root c (disk s1) = (root, err, c', d') ->
                 CensusRoot censusID s
                 = Returns
                     (set_heap (fun h => <[handle := c']> h) (set_disk d' s1))
                     match err with
                     | Some e =>
                         ([], Some ("Can not get the CensusRoot, " +:+ e))
                     | None => (root, None)
                     end
       end.
Proof.
  intros Hok.
  destruct (loadCensusIfNotYet_returns censusID s) as (s1 & lerr & Hl).
  exists s1, lerr. split; [done|].
  destruct lerr as [e|];
    [unfold CensusRoot; unfold bind at 1; by rewrite Hl|].
  destruct (loadCensusIfNotYet_registered _ _ _ Hok Hl)
    as (_ & handle & c & Hc & Hh).
  exists handle, c. split; [done|]. split; [done|].
  intros root err c' d' Hm.
  unfold CensusRoot. unfold bind at 1. rewrite Hl.
  unfold bind. rewrite (call_census_returns _ _ _ _ _ Hc Hh), Hm. simpl.
  by destruct err.
Qed.

(** X10.  From a good registry [CloseCensus] returns.  An error of the load
    is returned as it is.  When the census loads, what [Close] of the census
    object gives is returned as it is, and the registry still holds the
    census, under the same handle: closing removes nothing from the
    registry. *)
Theorem CloseCensus_reports (s : State) censusID :
  registry_ok s ->
  exists s1 lerr,
    loadCensusIfNotYet censusID s = Returns s1 lerr
    /\ match lerr with
       | Some e => CloseCensus censusID s = Returns s1 (Some e)
       | None =>
           exists handle c,
             censuses s1 !! censusID = Some handle
             /\ heap s1 !! handle = Some c
             /\ forall err c' d',
                 census_Close c (disk s1) = (err, c', d') ->
                 CloseCensus censusID s
                 = Returns
                     (set_heap (fun h => <[handle := c']> h) (set_disk d' s1))
                     err
                 /\ censuses (final (CloseCensus censusID s)) !! censusID
                    = Some handle
       end.
Proof.
  intros Hok.
  destruct (loadCensusIfNotYet_returns censusID s) as (s1 & lerr & Hl).
  exists s1, lerr. split; [done|].
  destruct lerr as [e|];
    [unfold CloseCensus; unfold bind at 1; by rewrite Hl|].
  destruct (loadCensusIfNotYet_registered _ _ _ Hok Hl)
    as (_ & handle & c & Hc & Hh).
  exists handle, c. split; [done|]. split; [done|].
  intros err c' d' Hm.
  unfold CloseCensus, bind. rewrite Hl.
  rewrite (call_census_returns _ _ _ _ _ Hc Hh), Hm. simpl. done.
Qed.

(** X11.  From a good registry, an error of the load makes [AddPublicKeys]
    return it without handing the batch to a census, and an error of the
    census is returned as it is, whatever keys the census reports as
    rejected with it: the count of rejected keys is then not reported. *)
Theorem AddPublicKeys_errors (s : State) censusID pubKs :
  registry_ok s ->
  exists s1 lerr,
    loadCensusIfNotYet censusID s = Returns s1 lerr
    /\ match lerr with
       | Some e => AddPublicKeys censusID pubKs s = Returns s1 (Some e)
       | None =>
           exists handle c,
             censuses s1 !! censusID = Some handle
             /\ heap s1 !! handle = Some c
             /\ forall invalids e c' d',
                 census_AddPublicKeys pubKs c (disk s1)
                 = (invalids, Some e, c', d') ->
                 AddPublicKeys censusID pubKs s
                 = Returns
                     (set_heap (fun h => <[handle := c']> h) (set_disk d' s1))
                     (Some e)
       end.
Proof.
  intros Hok.
  destruct (loadCensusIfNotYet_returns censusID s) as (s1 & lerr & Hl).
  exists s1, lerr. split; [done|].
  destruct lerr as [e|];
    [unfold AddPublicKeys; unfold bind at 1; by rewrite Hl|].
  destruct (loadCensusIfNotYet_registered _ _ _ Hok Hl)
    as (_ & handle & c & Hc & Hh).
  exists handle, c. split; [done|]. split; [done|].
  intros invalids e c' d' Hm.
  unfold AddPublicKeys. unfold bind at 1. rewrite Hl.
  unfold bind. by rewrite (call_census_returns _ _ _ _ _ Hc Hh), Hm.
Qed.

(** X12.  Two identifiers have two directories: on the whole 64-bit range
    the directory that is opened for a census tells the identifier. *)
Theorem census_paths_distinct root i j :
  Uint64.in_range i -> Uint64.in_range j -> i <> j ->
  census_path root i <> census_path root j.
Proof.
  intros Hi Hj Hne Heq. by apply Hne, (census_path_inj root).
Qed.

(** X13.  The counter is read as it was written: when [setNextCensusID]
    has stored a 64-bit [nextCensusID] in a write transaction,
    [getNextCensusID] on that transaction returns that value, before any
    commit, unless the engine fails the read; and a database to which the
    transaction is committed holds it as its counter, whatever the
    transaction and the database held before. *)
Theorem setNextCensusID_getNextCensusID (wTx wTx' : Database.Tx) (n : Z)
    (s s1 : State) :
  Uint64.in_range n ->
  setNextCensusID wTx n s = Returns s1 (wTx', None) ->
  (forall s2 : State,
      exists s3,
        getNextCensusID wTx' s2
        = Returns s3
            match (db_fault (Database.OpGet dbKeyNextCensusID) (disk s2)).1
            with
            | Some e => (0, Some e)
            | None => (n, None)
            end)
  /\ (forall s2 s3 : State,
        commit wTx' s2 = Returns s3 None -> counter (db s3) = Some n).
Proof.
  intros Hn Hset.
  pose proof (LittleEndianFacts.Uint64_PutUint64 n Hn) as Hrt.
  rewrite setNextCensusID_unfold in Hset. cbv zeta in Hset.
  destruct (db_fault (Database.OpSet _ _) (disk s)) as [[e|] d1];
    simpl in Hset; [done|].
  injection Hset as _ <-. split.
  - intros s2. rewrite getNextCensusID_unfold. cbv zeta.
    destruct (db_fault (Database.OpGet _) (disk s2)).1; [by eexists|].
    rewrite Get_Set, Hrt. by eexists.
  - intros s2 s3. rewrite commit_unfold. cbv zeta.
    destruct (db_fault Database.OpCommit (disk s2)).1; [done|].
    intros [= <-]. unfold counter, set_db, Database.Commit. simpl.
    erewrite lookup_union_Some_l by apply lookup_insert_eq.
    exact Hrt.
Qed.

(** X20.  [New] is atomic on the control database.  When it returns an
    error, of the write of the counter or of the commit, the database is as
    it was.  When it returns a builder, the builder has the directory that
    was given and an empty registry, and either the counter was read and
    the database is as it was, or the counter [0] was stored and the
    database is the same under every other key. *)
Theorem New_atomic (database : Database.Store) path d (s : State) err :
  New database path d = Returns s err ->
  subDBsPath s = path
  /\ censuses s = ∅
  /\ match err with
     | Some e => db s = database
     | None =>
         (exists v, counter database = Some v /\ db s = database)
         \/ (counter (db s) = Some 0
             /\ forall key,
                 key <> dbKeyNextCensusID -> db s !! key = database !! key)
     end.
Proof.
  assert (H0 : forall d' : Disk,
             counter (db (fresh (<[dbKeyNextCensusID :=
                                     LittleEndian.PutUint64 0]> database)
                            path d')) = Some 0
             /\ forall key,
                 key <> dbKeyNextCensusID ->
                 db (fresh (<[dbKeyNextCensusID :=
                                LittleEndian.PutUint64 0]> database)
                       path d') !! key
                 = database !! key).
  { intros d'. simpl. split.
    - apply counter_insert. unfold Uint64.in_range, Uint64.modulus. lia.
    - intros key Hk. by rewrite lookup_insert_ne. }
  rewrite New_unfold. cbv zeta.
  destruct (db_fault (Database.OpGet _) d) as [[e0|] d0]; simpl.
  - destruct (db_fault (Database.OpSet _ _) d0) as [[e1|] d1]; simpl;
      [by intros [= <- <-]|].
    destruct (db_fault Database.OpCommit d1) as [[e2|] d2]; simpl;
      intros [= <- <-]; [done|].
    split; [done|]. split; [done|]. right. apply H0.
  - destruct (database !! dbKeyNextCensusID) as [b|] eqn:Hk.
    + destruct (LittleEndian.Uint64 b) as [v|] eqn:Hb; [|done].
      destruct (db_fault Database.OpCommit d0) as [[e2|] d2]; simpl;
        intros [= <- <-]; [done|].
      split; [done|]. split; [done|]. left. exists v.
      unfold counter. by rewrite Hk.
    + destruct (db_fault (Database.OpSet _ _) d0) as [[e1|] d1]; simpl;
        [by intros [= <- <-]|].
      destruct (db_fault Database.OpCommit d1) as [[e2|] d2]; simpl;
        intros [= <- <-]; [done|].
      split; [done|]. split; [done|]. right. apply H0.
Qed.

End WithCollaborators.

#[local] Existing Instance Reference.collaborators.

Lemma NewCensus_success_witness :
  let s : State := final (New ∅ "/var/censuses" ∅) in
  let s' := final (NewCensus s) in
  counter (db s) = Some 0
  /\ counter (db s') = Some (Uint64.add 0 1)
  /\ is_Some (censuses s' !! 0)
  /\ forall key, key <> dbKeyNextCensusID -> db s' !! key = db s !! key.
Proof.
  intros s s'. apply (NewCensus_success s s' 0), returns_final.
  vm_compute. reflexivity.
Defined.

(** The read and the write of the counter succeed and the commit fails:
    the census of the identifier [0] is loaded, and no identifier is
    issued. *)
Lemma NewCensus_failure_witness :
  let d : @Disk Reference.scheduled :=
    [None; None; Some "input/output error"] in
  let u : @State Reference.scheduled :=
    @fresh Reference.scheduled
      {[ dbKeyNextCensusID := LittleEndian.PutUint64 0 ]} "/var/censuses" d in
  let u' := final (NewCensus u) in
  result (NewCensus u) = Some (0, Some "input/output error")
  /\ db u' = db u
  /\ (censuses u' = censuses u /\ heap u' = heap u
      \/ exists v, counter (db u') = Some v /\ is_Some (censuses u' !! v)).
Proof.
  intros d u u'.
  assert (H : result (NewCensus u) = Some (0, Some "input/output error"))
    by (vm_compute; reflexivity).
  split; [exact H|].
  exact (proj2 (@NewCensus_failure Reference.scheduled u u' 0
                  "input/output error" (returns_final _ _ H))).
Defined.

Lemma NewCensus_consecutive_witness :
  let s : State :=
    fresh (<[dbKeyNextCensusID := LittleEndian.PutUint64 7]> ∅)
          "/var/censuses" ∅ in
  exists s' rs,
    times 3 NewCensus s = Returns s' rs
    /\ length rs = 3%nat
    /\ succeeded rs
       = map (fun i => Uint64.wrap (7 + Z.of_nat i))
             (seq 0 (length (succeeded rs)))
    /\ counter (db s')
       = Some (Uint64.wrap (7 + Z.of_nat (length (succeeded rs)))).
Proof.
  intros s. apply (NewCensus_consecutive 3 s 7). vm_compute. reflexivity.
Defined.

Lemma NewCensus_wraps_witness :
  let s : State :=
    fresh (<[dbKeyNextCensusID := LittleEndian.PutUint64 (2 ^ 64 - 1)]> ∅)
          "/var/censuses" ∅ in
  exists s1 s2,
    NewCensus s = Returns s1 (2 ^ 64 - 1, None)
    /\ counter (db s1) = Some 0
    /\ NewCensus s1 = Returns s2 (0, None).
Proof.
  intros s.
  apply (NewCensus_wraps s reference_storage_available
           reference_database_reliable).
  vm_compute. reflexivity.
Defined.

Lemma loadCensusIfNotYet_retry_witness :
  let u : @State Reference.unavailable :=
    @fresh Reference.unavailable ∅ "/var/censuses" tt in
  let u1 := final (loadCensusIfNotYet 5 u) in
  censuses u1 = censuses u /\ heap u1 = heap u /\ db u1 = db u
  /\ opens_of 5 (trace (final (loadCensusIfNotYet 5 u1)))
     = opens_of 5 (trace u)
       ++ [census_path (subDBsPath u) 5; census_path (subDBsPath u) 5].
Proof.
  intros u u1.
  apply (@loadCensusIfNotYet_retry Reference.unavailable 5 u u1
           "pebble: permission denied"), returns_final.
  vm_compute. reflexivity.
Defined.

Lemma calls_return_witness :
  let s : State := final (New ∅ "/var/censuses" ∅) in
  exists s', exec CallNewCensus s = Returns s' tt /\ registry_ok s'.
Proof.
  intros s. apply (calls_return s CallNewCensus).
  - exact (registry_ok_reachable ∅ "/var/censuses" ∅ []).
  - intros _ b Hb. vm_compute in Hb. injection Hb as <-. simpl. lia.
Defined.

Lemma SetStatus_failure_witness :
  let u : @State Reference.unavailable :=
    @fresh Reference.unavailable ∅ "/var/censuses" tt in
  db (final (SetStatus 0 "ready" u)) = db u.
Proof.
  intros u.
  apply (@SetStatus_failure Reference.unavailable u _ 0 "ready"
           "pebble: permission denied"), returns_final.
  vm_compute. reflexivity.
Defined.

Lemma CensusRoot_reports_witness :
  let s : State := final (New ∅ "/var/censuses" ∅) in
  exists s1 lerr,
    loadCensusIfNotYet 0 s = Returns s1 lerr
    /\ match lerr with
       | Some e => CensusRoot 0 s = Returns s1 ([], Some e)
       | None =>
           exists handle c,
             censuses s1 !! 0 = Some handle
             /\ heap s1 !! handle = Some c
             /\ forall root err c' d',
                 census_Root c (disk s1) = (root, err, c', d') ->
                 CensusRoot 0 s
                 = Returns
                     (set_heap (fun h => <[handle := c']> h) (set_disk d' s1))
                     match err with
                     | Some e =>
                         ([], Some ("Can not get the CensusRoot, " +:+ e))
                     | None => (root, None)
                     end
       end.
Proof.
  intros s.
  exact (CensusRoot_reports s 0 (registry_ok_reachable ∅ "/var/censuses" ∅ [])).
Defined.

Lemma CloseCensus_reports_witness :
  let s : State := final (New ∅ "/var/censuses" ∅) in
  exists s1 lerr,
    loadCensusIfNotYet 0 s = Returns s1 lerr
    /\ match lerr with
       | Some e => CloseCensus 0 s = Returns s1 (Some e)
       | None =>
           exists handle c,
             censuses s1 !! 0 = Some handle
             /\ heap s1 !! handle = Some c
             /\ forall err c' d',
                 census_Close c (disk s1) = (err, c', d') ->
                 CloseCensus 0 s
                 = Returns
                     (set_heap (fun h => <[handle := c']> h) (set_disk d' s1))
                     err
                 /\ censuses (final (CloseCensus 0 s)) !! 0 = Some handle
       end.
Proof.
  intros s.
  exact (CloseCensus_reports s 0 (registry_ok_reachable ∅ "/var/censuses" ∅ [])).
Defined.

Lemma AddPublicKeys_errors_witness :
  let u : @State Reference.unavailable :=
    @fresh Reference.unavailable ∅ "/var/censuses" tt in
  let pubKs := [mkPublicKey 1 2] in
  exists u1 lerr,
    loadCensusIfNotYet 0 u = Returns u1 lerr
    /\ match lerr with
       | Some e => AddPublicKeys 0 pubKs u = Returns u1 (Some e)
       | None =>
           exists handle c,
             censuses u1 !! 0 = Some handle
             /\ heap u1 !! handle = Some c
             /\ forall invalids e c' d',
                 @census_AddPublicKeys Reference.unavailable pubKs c (disk u1)
                 = (invalids, Some e, c', d') ->
                 AddPublicKeys 0 pubKs u
                 = Returns
                     (set_heap (fun h => <[handle := c']> h) (set_disk d' u1))
                     (Some e)
       end.
Proof.
  intros u pubKs.
  exact (@AddPublicKeys_errors Reference.unavailable u 0 pubKs
           (@registry_ok_fresh Reference.unavailable ∅ _ tt)).
Defined.

Lemma census_paths_distinct_witness :
  Uint64.in_range (2 ^ 63)
  /\ census_path "/var/censuses" (2 ^ 63 - 1)
     <> census_path "/var/censuses" (2 ^ 63).
Proof.
  assert (H1 : Uint64.in_range (2 ^ 63 - 1))
    by (unfold Uint64.in_range, Uint64.modulus; lia).
  assert (H2 : Uint64.in_range (2 ^ 63))
    by (unfold Uint64.in_range, Uint64.modulus; lia).
  split; [exact H2|].
  apply (census_paths_distinct "/var/censuses" _ _ H1 H2). lia.
Defined.

Lemma setNextCensusID_getNextCensusID_witness :
  let s : State := fresh ∅ "/var/censuses" ∅ in
  let wTx := Database.WriteTx (db (final (New ∅ "/var/censuses" ∅))) in
  let wTx' :=
    Database.Set_ wTx dbKeyNextCensusID (LittleEndian.PutUint64 (2 ^ 40 + 5)) in
  Uint64.in_range (2 ^ 40 + 5)
  /\ setNextCensusID wTx (2 ^ 40 + 5) s = Returns s (wTx', None)
  /\ result (getNextCensusID wTx' s) = Some (2 ^ 40 + 5, None).
Proof.
  intros s wTx wTx'.
  assert (Hn : Uint64.in_range (2 ^ 40 + 5))
    by (unfold Uint64.in_range, Uint64.modulus; lia).
  assert (Hset : setNextCensusID wTx (2 ^ 40 + 5) s = Returns s (wTx', None))
    by reflexivity.
  split; [exact Hn|]. split; [exact Hset|].
  destruct (proj1 (setNextCensusID_getNextCensusID wTx wTx' _ s s Hn Hset) s)
    as [s3 Hget].
  rewrite Hget. reflexivity.
Defined.

(** The counter is absent, the write succeeds and the commit fails: [New]
    returns the error and the database is still empty. *)
Lemma New_atomic_witness :
  let d : @Disk Reference.scheduled :=
    [None; None; Some "input/output error"] in
  let s := final (@New Reference.scheduled ∅ "/var/censuses" d) in
  result (@New Reference.scheduled ∅ "/var/censuses" d)
  = Some (Some "input/output error")
  /\ subDBsPath s = "/var/censuses"
  /\ censuses s = ∅
  /\ db s = ∅.
Proof.
  intros d s.
  assert (H : result (@New Reference.scheduled ∅ "/var/censuses" d)
              = Some (Some "input/output error"))
    by (vm_compute; reflexivity).
  split; [exact H|].
  exact (@New_atomic Reference.scheduled ∅ "/var/censuses" d s
           (Some "input/output error") (returns_final _ _ H)).
Defined.

End CensusBuilderMore.

(** ** The ledger of vote packages *)

Module SQLiteMore.
Import SQLite SQLiteFacts.

Lemma unique_violation_None x rows :
  unique_violation x rows = None ->
  Forall (fun y => indx y <> indx x /\ publicKey y <> publicKey x
                   /\ merkleproof y <> merkleproof x) rows.
Proof.
  unfold unique_violation.
  repeat (case_bool_decide; [done|]). intros _.
  apply Forall_forall. intros y Hy.
  repeat split; intros Heq;
    match goal with
    | Hn : ~ Exists (fun z => _ z = _ x) rows |- _ =>
        apply Hn, Exists_exists; by exists y
    end.
Qed.

Lemma insert_row_sorted x rows :
  StronglySorted (fun a b => indx a < indx b) rows ->
  Forall (fun y => indx y <> indx x) rows ->
  StronglySorted (fun a b => indx a < indx b) (insert_row x rows).
Proof.
  induction 1 as [|y rest Hs IH Hy]; intros Hne; simpl.
  - repeat constructor.
  - apply Forall_cons in Hne as [Hyx Hne].
    destruct (Z.ltb_spec (indx x) (indx y)).
    + constructor; [by constructor|].
      constructor; [done|].
      eapply Forall_impl; [exact Hy|]. simpl. intros z Hz. lia.
    + constructor; [by apply IH|].
      rewrite insert_row_Permutation. constructor; [lia|done].
Qed.

Lemma NoDup_map_insert_row {B} (f : row -> B) x rows :
  f x ∉ map f rows -> NoDup (map f rows) ->
  NoDup (map f (insert_row x rows)).
Proof.
  intros Hx Hnd.
  assert (Hp : map f (insert_row x rows) ≡ₚ f x :: map f rows).
  { change (f x :: map f rows) with (map f (x :: rows)).
    apply Permutation_map, insert_row_Permutation. }
  rewrite Hp. by constructor.
Qed.

Lemma StoreVotePackage_ledger_ok now root v rows :
  ledger_ok rows ->
  exists rows',
    votepackages (StoreVotePackage now root v (mkSQLite (Some rows))).1
    = Some rows'
    /\ ledger_ok rows'.
Proof.
  intros (Hs & Hpk & Hmp). unfold StoreVotePackage. simpl.
  destruct (unique_violation (row_of now root v) rows) eqn:Hu;
    [by exists rows|].
  apply unique_violation_None in Hu. eexists. split; [done|].
  rewrite Forall_forall in Hu.
  split; [|split].
  - apply insert_row_sorted; [done|]. apply Forall_forall.
    intros y Hy. by destruct (Hu y Hy).
  - apply NoDup_map_insert_row; [|done].
    intros (y & Heq & Hy)%list_elem_of_fmap. destruct (Hu y Hy) as (_ & ? & _).
    congruence.
  - apply NoDup_map_insert_row; [|done].
    intros (y & Heq & Hy)%list_elem_of_fmap. destruct (Hu y Hy) as (_ & _ & ?).
    congruence.
Qed.

(** X16.  The constraints of the table are an invariant: from a table whose
    rows have distinct indexes, public keys and Merkle proofs, whatever
    vote packages are stored, under whatever census roots, the table still
    exists and its rows still have distinct indexes, public keys and Merkle
    proofs, across all census roots. *)
Theorem store_all_ledger_ok ops rows :
  ledger_ok rows ->
  exists rows',
    votepackages (store_all ops (mkSQLite (Some rows))) = Some rows'
    /\ ledger_ok rows'.
Proof.
  revert rows. induction ops as [|[[now root] v] ops IH]; intros rows Hok.
  - by exists rows.
  - unfold store_all. simpl.
    destruct (StoreVotePackage_ledger_ok now root v rows Hok)
      as (rows1 & Hr1 & Hok1).
    destruct (StoreVotePackage now root v (mkSQLite (Some rows))) as [[t] e].
    simpl in Hr1. subst t. apply (IH rows1 Hok1).
Qed.

Lemma rows_of_root_insert_other root x rows :
  censusRoot x <> root ->
  rows_of_root root (insert_row x rows) = rows_of_root root rows.
Proof.
  intros Hx. unfold rows_of_root.
  induction rows as [|y rest IH]; simpl.
  - by rewrite filter_cons_False.
  - destruct (indx x <? indx y).
    + by rewrite filter_cons_False.
    + rewrite !(filter_cons _ y). by rewrite IH.
Qed.

(** X17.  A vote package that was stored is read back as it was given,
    under its census root: the packages read for that root are the new one
    and the ones read before, and what is read for every other census root
    is unchanged. *)
Theorem StoreVotePackage_frame now root v (r r' : SQLite) :
  StoreVotePackage now root v r = (r', None) ->
  (ReadVotePackagesByCensusRoot root r').2 = None
  /\ (ReadVotePackagesByCensusRoot root r').1
     ≡ₚ v :: (ReadVotePackagesByCensusRoot root r).1
  /\ forall root',
      root' <> root ->
      ReadVotePackagesByCensusRoot root' r'
      = ReadVotePackagesByCensusRoot root' r.
Proof.
  destruct r as [[rows|]]; [|done]. intros H.
  apply StoreVotePackage_stored in H as ->.
  unfold ReadVotePackagesByCensusRoot. simpl.
  split; [done|]. split.
  - rewrite order_by_datetime_desc_Permutation.
    rewrite rows_of_root_insert_row by done. simpl.
    rewrite scan_row_of. constructor.
    by rewrite order_by_datetime_desc_Permutation.
  - intros root' Hne. by rewrite rows_of_root_insert_other.
Qed.

Lemma rows_of_root_insert_row_incl root x rows w :
  w ∈ map scan (order_by_datetime_desc (rows_of_root root rows)) ->
  w ∈ map scan (order_by_datetime_desc (rows_of_root root (insert_row x rows))).
Proof.
  rewrite !order_by_datetime_desc_Permutation. unfold rows_of_root.
  rewrite insert_row_Permutation, filter_cons.
  destruct (decide (censusRoot x = root)); [|done].
  intros Hw. simpl. apply elem_of_cons. by right.
Qed.

(** X18.  The ledger only grows: a vote package that is read for a census
    root is still read for it after any call of [StoreVotePackage], whether
    the call succeeds or fails. *)
Theorem StoreVotePackage_append_only now root v (r : SQLite) root0 w :
  w ∈ (ReadVotePackagesByCensusRoot root0 r).1 ->
  w ∈ (ReadVotePackagesByCensusRoot root0
         (StoreVotePackage now root v r).1).1.
Proof.
  intros Hw.
  destruct (StoreVotePackage now root v r) as [r' [e|]] eqn:Hs; simpl.
  - destruct r as [[rows|]]; [|by injection Hs as <-].
    unfold StoreVotePackage in Hs. simpl in Hs.
    destruct (unique_violation _ rows); [|done]. by injection Hs as <-.
  - destruct r as [[rows|]]; [|done].
    apply StoreVotePackage_stored in Hs as ->.
    unfold ReadVotePackagesByCensusRoot in *. simpl in *.
    by apply rows_of_root_insert_row_incl.
Qed.

Lemma insert_row_split x rows :
  exists l1 l2, rows = l1 ++ l2 /\ insert_row x rows = l1 ++ x :: l2.
Proof.
  induction rows as [|y rest (l1 & l2 & Hr & Hi)]; simpl.
  - by exists [], [].
  - destruct (indx x <? indx y).
    + by exists [], (y :: rest).
    + exists (y :: l1), l2. simpl. by rewrite Hi, <- Hr.
Qed.

Lemma insert_desc_newest x sorted :
  Forall (fun y => insertedDatetime y < insertedDatetime x) sorted ->
  insert_desc x sorted = x :: sorted.
Proof.
  destruct 1 as [|y rest Hy _]; simpl; [done|].
  destruct (Z.ltb_spec (insertedDatetime x) (insertedDatetime y)); [lia|done].
Qed.

Lemma foldr_insert_desc_newest x sorted rows :
  Forall (fun y => insertedDatetime y < insertedDatetime x) rows ->
  foldr insert_desc (x :: sorted) rows
  = x :: foldr insert_desc sorted rows.
Proof.
  induction 1 as [|y rest Hy _ IH]; simpl; [done|].
  rewrite IH. simpl.
  destruct (Z.ltb_spec (insertedDatetime y) (insertedDatetime x)); [done|lia].
Qed.

(** X19.  The most recent comes first: when a vote package is stored at a
    time later than the time of every row of its census root, it is read as
    the first of that root, before the packages that were read until then,
    which keep their order. *)
Theorem StoreVotePackage_newest_first now root v rows (r' : SQLite) :
  StoreVotePackage now root v (mkSQLite (Some rows)) = (r', None) ->
  Forall (fun y => insertedDatetime y < now) (rows_of_root root rows) ->
  ReadVotePackagesByCensusRoot root r'
  = (v :: (ReadVotePackagesByCensusRoot root (mkSQLite (Some rows))).1,
     None).
Proof.
  intros H Hold. apply StoreVotePackage_stored in H as ->.
  unfold ReadVotePackagesByCensusRoot. simpl. f_equal.
  set (x := row_of now root v).
  destruct (insert_row_split x rows) as (l1 & l2 & -> & ->).
  unfold rows_of_root in *. rewrite filter_app in Hold.
  apply Forall_app in Hold as [Hold1 Hold2].
  rewrite !filter_app, filter_cons_True by done.
  unfold order_by_datetime_desc. rewrite !foldr_app. simpl.
  rewrite insert_desc_newest.
  - rewrite foldr_insert_desc_newest by done. simpl.
    subst x. by rewrite scan_row_of.
  - fold (order_by_datetime_desc (filter (fun y => censusRoot y = root) l2)).
    rewrite order_by_datetime_desc_Permutation. exact Hold2.
Qed.

Lemma store_all_ledger_ok_witness :
  let v i b := mkVotePackage [Byte.x0a] (mkCensusProof i [b] [b]) [Byte.xff] in
  let ops := [(100, [Byte.xc1], v 7 Byte.x07);
              (101, [Byte.xc2], v 7 Byte.x08);
              (101, [Byte.xc2], v 3 Byte.x03)] in
  ledger_ok []
  /\ exists rows',
      votepackages (store_all ops (mkSQLite (Some []))) = Some rows'
      /\ ledger_ok rows'.
Proof.
  intros v ops.
  assert (H0 : ledger_ok []) by (repeat constructor).
  split; [exact H0|]. exact (store_all_ledger_ok ops [] H0).
Defined.

Lemma StoreVotePackage_frame_witness :
  let v i b := mkVotePackage [Byte.x0a] (mkCensusProof i [b] [b]) [Byte.xff] in
  let r0 := (Migrate (mkSQLite None)).1 in
  let r1 := (StoreVotePackage 100 [Byte.xc1] (v 7 Byte.x07) r0).1 in
  let r2 := (StoreVotePackage 101 [Byte.xc2] (v 3 Byte.x03) r1).1 in
  StoreVotePackage 101 [Byte.xc2] (v 3 Byte.x03) r1 = (r2, None)
  /\ (ReadVotePackagesByCensusRoot [Byte.xc2] r2).2 = None
  /\ (ReadVotePackagesByCensusRoot [Byte.xc2] r2).1
     ≡ₚ v 3 Byte.x03 :: (ReadVotePackagesByCensusRoot [Byte.xc2] r1).1
  /\ forall root',
      root' <> [Byte.xc2] ->
      ReadVotePackagesByCensusRoot root' r2
      = ReadVotePackagesByCensusRoot root' r1.
Proof.
  intros v r0 r1 r2.
  assert (H : StoreVotePackage 101 [Byte.xc2] (v 3 Byte.x03) r1 = (r2, None))
    by reflexivity.
  split; [exact H|]. exact (StoreVotePackage_frame _ _ _ _ _ H).
Defined.

Lemma StoreVotePackage_append_only_witness :
  let v i b := mkVotePackage [Byte.x0a] (mkCensusProof i [b] [b]) [Byte.xff] in
  let root := [Byte.xc1] in
  let r0 := (Migrate (mkSQLite None)).1 in
  let r1 := (StoreVotePackage 100 root (v 7 Byte.x07) r0).1 in
  v 7 Byte.x07 ∈ (ReadVotePackagesByCensusRoot root r1).1
  /\ v 7 Byte.x07
     ∈ (ReadVotePackagesByCensusRoot root
          (StoreVotePackage 101 root (v 7 Byte.x08) r1).1).1.
Proof.
  intros v root r0 r1.
  assert (H : v 7 Byte.x07 ∈ (ReadVotePackagesByCensusRoot root r1).1)
    by apply list_elem_of_here.
  split; [exact H|].
  exact (StoreVotePackage_append_only 101 root (v 7 Byte.x08) r1 root _ H).
Defined.

Lemma StoreVotePackage_newest_first_witness :
  let v i b := mkVotePackage [Byte.x0a] (mkCensusProof i [b] [b]) [Byte.xff] in
  let root := [Byte.xc1] in
  let rows := [row_of 100 root (v 7 Byte.x07);
               row_of 200 [Byte.xc2] (v 9 Byte.x09)] in
  let r2 := (StoreVotePackage 101 root (v 3 Byte.x03)
               (mkSQLite (Some rows))).1 in
  StoreVotePackage 101 root (v 3 Byte.x03) (mkSQLite (Some rows)) = (r2, None)
  /\ Forall (fun y => insertedDatetime y < 101) (rows_of_root root rows)
  /\ ReadVotePackagesByCensusRoot root r2
     = ([v 3 Byte.x03; v 7 Byte.x07], None).
Proof.
  intros v root rows r2.
  assert (H : StoreVotePackage 101 root (v 3 Byte.x03) (mkSQLite (Some rows))
              = (r2, None)) by reflexivity.
  assert (Hold : Forall (fun y => insertedDatetime y < 101)
                   (rows_of_root root rows))
    by (vm_compute; repeat constructor).
  split; [exact H|]. split; [exact Hold|].
  exact (StoreVotePackage_newest_first 101 root (v 3 Byte.x03) rows r2 H Hold).
Defined.

End SQLiteMore.
